(** * mackup: ApplicationProfile.backup / ApplicationProfile.restore

    A shallow embedding of [mackup/application.py].  The two loops of the
    class are written in a small state-and-exception monad over a world
    made of a file system and a log of the calls that leave the process
    (prints, confirmation prompts, deletes, copies).

    Conventions of the model:
    - the file system maps a path to what [os.lstat] and [os.stat] report
      there; a symbolic link carries the outcome of resolving it, and paths
      are independent entries (no directory tree);
    - [HOME] is defined in the environment;
    - [utils.confirm], [utils.copy], [utils.delete] and the platform
      predicate are parameters (class [Utils]); the statements about the
      loops hold for every instance, and the concrete runs use a reference
      instance modelled from the specification. *)

From Stdlib Require Import String Ascii List Bool Arith Lia.
From stdpp Require Import base option strings list gmap.

Local Open Scope string_scope.

(** ** The file system, as [os.path] sees it *)

(** What [os.stat] reports about the object a path finally leads to. *)
Inductive kind : Type :=
| RegularFile
| Directory
| Other.          (* fifo, socket, device node, ... *)

(** What sits at a path: the object itself, or a symbolic link together
    with the result of resolving it ([None] for a broken link). *)
Inductive node : Type :=
| Plain (k : kind)
| Symlink (target : option kind).

Abbreviation FS := (gmap string node).

#[global] Instance kind_eq_dec : EqDecision kind.
Proof. solve_decision. Defined.
#[global] Instance node_eq_dec : EqDecision node.
Proof. solve_decision. Defined.

(** [os.stat]: follows symbolic links. *)
Definition stat (fs : FS) (path : string) : option kind :=
  match fs !! path with
  | Some (Plain k) => Some k
  | Some (Symlink target) => target
  | None => None
  end.

Definition isfile (fs : FS) (path : string) : bool :=
  match stat fs path with Some RegularFile => true | _ => false end.

Definition isdir (fs : FS) (path : string) : bool :=
  match stat fs path with Some Directory => true | _ => false end.

(** [os.path.islink] looks at the path itself ([os.lstat]). *)
Definition islink (fs : FS) (path : string) : bool :=
  match fs !! path with Some (Symlink _) => true | _ => false end.

(** [os.path.exists] is [os.stat] succeeding: false on a broken link. *)
Definition exists_ (fs : FS) (path : string) : bool :=
  match stat fs path with Some _ => true | None => false end.

(** ** Strings *)

Definition nl : string := String "010"%char EmptyString.

(** [str.endswith("/")] *)
Fixpoint endswith_sep (s : string) : bool :=
  match s with
  | EmptyString => false
  | String c EmptyString => Ascii.eqb c "/"%char
  | String _ rest => endswith_sep rest
  end.

(** [str.startswith("/")] *)
Definition startswith_sep (s : string) : bool :=
  match s with
  | String c _ => Ascii.eqb c "/"%char
  | EmptyString => false
  end.

(** [not path] on a string *)
Definition is_empty (s : string) : bool :=
  match s with EmptyString => true | String _ _ => false end.

(** [posixpath.join] on two components. *)
Definition os_path_join (a b : string) : string :=
  if startswith_sep b then b
  else if is_empty a || endswith_sep a then a +:+ b
  else a +:+ "/" +:+ b.

(** ** Events, exceptions, worlds *)

Inductive event : Type :=
| Printed (text : string)                      (* print(text) *)
| Asked (question : string) (answer : bool)    (* utils.confirm(question) *)
| Deleted (path : string)                      (* utils.delete(path) *)
| Copied (src dst : string).                   (* utils.copy(src, dst) *)

Inductive exn : Type :=
| ValueError (msg : string)
| OSError (msg : string).

Inductive result (A : Type) : Type :=
| Ok (a : A)
| Raise (e : exn).
Arguments Ok {A} a.
Arguments Raise {A} e.

Record World : Type := mkWorld { fs : FS; out : list event }.

Definition log (e : event) (w : World) : World :=
  {| fs := fs w; out := out w ++ [e] |}.

(** ** The collaborators

    [utils.confirm], [utils.copy], [utils.delete] and
    [utils.can_file_be_synced_on_current_platform] live in another module,
    and [HOME] comes from the process environment.  The operator's answer
    may depend on everything shown so far.  A copy or a delete either
    yields the new file system or raises and leaves it as it was. *)
Class Utils : Type := {
  HOME : string;
  confirm_answer : list event -> string -> bool;
  copy_effect : string -> string -> FS -> result FS;
  delete_effect : string -> FS -> result FS;
  can_file_be_synced_on_current_platform : string -> bool
}.

(** ** The monad *)

Definition M (A : Type) : Type := World -> result A * World.

Definition ret {A} (a : A) : M A := fun w => (Ok a, w).

Definition bind {A B} (m : M A) (k : A -> M B) : M B :=
  fun w =>
    match m w with
    | (Ok a, w') => k a w'
    | (Raise e, w') => (Raise e, w')
    end.

Definition raise {A} (e : exn) : M A := fun w => (Raise e, w).

Declare Scope py_scope.
Delimit Scope py_scope with py.
Notation "x <- c1 ;; c2" := (bind c1 (fun x => c2))
  (at level 100, c1 at next level, right associativity) : py_scope.
Notation "c1 ;; c2" := (bind c1 (fun _ => c2))
  (at level 100, right associativity) : py_scope.
Local Open Scope py_scope.

(** Python's short-circuit [or], [and], and [not] on effectful tests. *)
Definition orM (a b : M bool) : M bool :=
  x <- a ;; if x then ret true else b.
Definition andM (a b : M bool) : M bool :=
  x <- a ;; if x then b else ret false.
Definition notM (a : M bool) : M bool :=
  x <- a ;; ret (negb x).

Definition os_path_isfile (path : string) : M bool :=
  fun w => (Ok (isfile (fs w) path), w).
Definition os_path_isdir (path : string) : M bool :=
  fun w => (Ok (isdir (fs w) path), w).
Definition os_path_islink (path : string) : M bool :=
  fun w => (Ok (islink (fs w) path), w).
Definition os_path_exists (path : string) : M bool :=
  fun w => (Ok (exists_ (fs w) path), w).

Definition print (text : string) : M unit :=
  fun w => (Ok tt, log (Printed text) w).

Section Collaborators.
Context {U : Utils}.

Definition utils_confirm (question : string) : M bool :=
  fun w =>
    let answer := confirm_answer (out w) question in
    (Ok answer, log (Asked question answer) w).

Definition utils_delete (path : string) : M unit :=
  fun w =>
    let w1 := log (Deleted path) w in
    match delete_effect path (fs w) with
    | Ok fs' => (Ok tt, {| fs := fs'; out := out w1 |})
    | Raise e => (Raise e, w1)
    end.

Definition utils_copy (src dst : string) : M unit :=
  fun w =>
    let w1 := log (Copied src dst) w in
    match copy_effect src dst (fs w) with
    | Ok fs' => (Ok tt, {| fs := fs'; out := out w1 |})
    | Raise e => (Raise e, w1)
    end.
End Collaborators.

(** [for x in xs: body(x)]; an exception leaves the loop. *)
Fixpoint for_each (body : string -> M unit) (xs : list string) : M unit :=
  match xs with
  | [] => ret tt
  | x :: rest => body x ;; for_each body rest
  end.

(** ** ApplicationProfile *)

Record Mackup : Type := { mackup_folder : string }.

Record ApplicationProfile : Type := {
  mackup : Mackup;
  files : list string;       (* list(files), in the order the set yields them *)
  dry_run : bool;
  verbose : bool
}.

(** The texts handed to [print], [utils.confirm] and [ValueError]. *)

Definition backing_up_verbose (home_filepath mackup_filepath : string) : string :=
  "Backing up" +:+ nl +:+ "  " +:+ home_filepath +:+ nl +:+ "  to" +:+ nl
  +:+ "  " +:+ mackup_filepath +:+ " ...".

Definition backing_up_terse (filename : string) : string :=
  "Backing up " +:+ filename +:+ " ...".

Definition backup_question (file_type mackup_filepath : string) : string :=
  "A " +:+ file_type +:+ " named " +:+ mackup_filepath
  +:+ " already exists in the backup." +:+ nl
  +:+ "Are you sure that you want to replace it ?".

Definition unsupported_file (path : string) : string :=
  "Unsupported file: " +:+ path.

Definition already_backed_up (home_filepath mackup_filepath : string) : string :=
  "Doing nothing" +:+ nl +:+ "  " +:+ home_filepath +:+ nl +:+ "  "
  +:+ "is already backed up to" +:+ nl +:+ "  " +:+ mackup_filepath.

Definition broken_link (home_filepath : string) : string :=
  "Doing nothing" +:+ nl +:+ "  " +:+ home_filepath +:+ nl +:+ "  "
  +:+ "is a broken link, you might want to fix it.".

Definition does_not_exist (path : string) : string :=
  "Doing nothing" +:+ nl +:+ "  " +:+ path +:+ nl +:+ "  does not exist".

Definition restoring_verbose (home_filepath mackup_filepath : string) : string :=
  "Restoring" +:+ nl +:+ "  linking " +:+ home_filepath +:+ nl
  +:+ "  to      " +:+ mackup_filepath +:+ " ...".

Definition restoring_terse (filename : string) : string :=
  "Restoring " +:+ filename +:+ " ...".

Definition restore_question (file_type filename : string) : string :=
  "You already have a " +:+ file_type +:+ " named " +:+ filename
  +:+ " in your home." +:+ nl
  +:+ "Do you want to replace it with your backup ?".

Definition already_linked (mackup_filepath home_filepath : string) : string :=
  "Doing nothing" +:+ nl +:+ "  " +:+ mackup_filepath +:+ nl
  +:+ "  already linked by" +:+ nl +:+ "  " +:+ home_filepath.

Section Profile.
Context {U : Utils}.
Variable self : ApplicationProfile.

Definition getFilepaths (filename : string) : string * string :=
  (os_path_join HOME filename,
   os_path_join (mackup_folder (mackup self)) filename).

(** The "Name it right" chain shared by both loops; the text of the
    exception always names [mackup_filepath]. *)
Definition name_it_right (path mackup_filepath : string) : M string :=
  f <- os_path_isfile path ;;
  if f then ret "file" else
  d <- os_path_isdir path ;;
  if d then ret "folder" else
  l <- os_path_islink path ;;
  if l then ret "link" else
  raise (ValueError (unsupported_file mackup_filepath)).

(** One turn of the loop of [backup]; [continue] ends the turn. *)
Definition backup_file (filename : string) : M unit :=
  let '(home_filepath, mackup_filepath) := getFilepaths filename in
  c <- andM (orM (os_path_isfile home_filepath) (os_path_isdir home_filepath))
            (notM (orM (os_path_isfile mackup_filepath)
                       (os_path_isdir mackup_filepath))) ;;
  if c then
    (if verbose self
     then print (backing_up_verbose home_filepath mackup_filepath)
     else print (backing_up_terse filename)) ;;
    if dry_run self then ret tt else
    e <- os_path_exists mackup_filepath ;;
    if e then
      file_type <- name_it_right mackup_filepath mackup_filepath ;;
      sure <- utils_confirm (backup_question file_type mackup_filepath) ;;
      if sure then
        utils_delete mackup_filepath ;;
        utils_copy home_filepath mackup_filepath
      else ret tt
    else
      utils_copy home_filepath mackup_filepath
  else if verbose self then
    e <- os_path_exists home_filepath ;;
    if e then print (already_backed_up home_filepath mackup_filepath) else
    l <- os_path_islink home_filepath ;;
    if l then print (broken_link home_filepath)
    else print (does_not_exist home_filepath)
  else ret tt.

Definition backup : M unit := for_each backup_file (files self).

(** One turn of the loop of [restore]. *)
Definition restore_file (filename : string) : M unit :=
  let '(home_filepath, mackup_filepath) := getFilepaths filename in
  file_or_dir_exists <- orM (os_path_isfile mackup_filepath)
                            (os_path_isdir mackup_filepath) ;;
  let supported := can_file_be_synced_on_current_platform filename in
  if file_or_dir_exists && supported then
    (if verbose self
     then print (restoring_verbose home_filepath mackup_filepath)
     else print (restoring_terse filename)) ;;
    if dry_run self then ret tt else
    e <- os_path_exists home_filepath ;;
    if e then
      file_type <- name_it_right home_filepath mackup_filepath ;;
      sure <- utils_confirm (restore_question file_type filename) ;;
      if sure then utils_copy mackup_filepath home_filepath else ret tt
    else
      utils_copy mackup_filepath home_filepath
  else if verbose self then
    e <- os_path_exists home_filepath ;;
    if e then print (already_linked mackup_filepath home_filepath) else
    l <- os_path_islink home_filepath ;;
    if l then print (broken_link home_filepath)
    else print (does_not_exist mackup_filepath)
  else ret tt.

Definition restore : M unit := for_each restore_file (files self).

End Profile.

(** ** A reference collaborator *)

(** Modelled from the spec: [utils.copy], which [application.py] imports
    from another module.  After a copy the destination exists and is a copy
    of what the source leads to, and the source is left as it was; a source
    that is neither a file nor a folder cannot be read. *)
Definition spec_copy (src dst : string) (fs : FS) : result FS :=
  match stat fs src with
  | Some RegularFile => Ok (<[dst := Plain RegularFile]> fs)
  | Some Directory => Ok (<[dst := Plain Directory]> fs)
  | _ => Raise (OSError ("cannot copy " +:+ src))
  end.

(** Modelled from the spec: [utils.delete], which [application.py] imports
    from another module.  It removes whatever is at the path. *)
Definition spec_delete (path : string) (fs : FS) : result FS :=
  Ok (delete path fs).

(** An operator who gives the same answer to every question, on a host
    whose home directory is [home] and where [supported] says which files
    may be synced. *)
Definition spec_utils (home : string) (answer : bool)
    (supported : string -> bool) : Utils :=
  {| HOME := home;
     confirm_answer := fun _ _ => answer;
     copy_effect := spec_copy;
     delete_effect := spec_delete;
     can_file_be_synced_on_current_platform := supported |}.

Definition profile (folder : string) (fl : list string) (dry v : bool)
    : ApplicationProfile :=
  {| mackup := {| mackup_folder := folder |};
     files := fl; dry_run := dry; verbose := v |}.


(** ** One turn of each loop as a decision table *)

Section Tables.
Context {U : Utils}.
Variable self : ApplicationProfile.

Definition home_of (filename : string) : string := fst (getFilepaths self filename).
Definition backup_of (filename : string) : string := snd (getFilepaths self filename).

(** The result of the "Name it right" chain, [None] when it raises. *)
Definition file_type (fs : FS) (path : string) : option string :=
  if isfile fs path then Some "file"
  else if isdir fs path then Some "folder"
  else if islink fs path then Some "link"
  else None.

(** The condition guarding the first branch of [backup]. *)
Definition backup_wanted (fs : FS) (filename : string) : bool :=
  (isfile fs (home_of filename) || isdir fs (home_of filename))
  && negb (isfile fs (backup_of filename) || isdir fs (backup_of filename)).

Definition backup_status (filename : string) : string :=
  if verbose self
  then backing_up_verbose (home_of filename) (backup_of filename)
  else backing_up_terse filename.

Definition backup_diagnostic (fs : FS) (filename : string) : string :=
  if exists_ fs (home_of filename)
  then already_backed_up (home_of filename) (backup_of filename)
  else if islink fs (home_of filename) then broken_link (home_of filename)
  else does_not_exist (home_of filename).

(** The condition guarding the first branch of [restore]. *)
Definition restore_wanted (fs : FS) (filename : string) : bool :=
  (isfile fs (backup_of filename) || isdir fs (backup_of filename))
  && can_file_be_synced_on_current_platform filename.

Definition restore_status (filename : string) : string :=
  if verbose self
  then restoring_verbose (home_of filename) (backup_of filename)
  else restoring_terse filename.

Definition restore_diagnostic (fs : FS) (filename : string) : string :=
  if exists_ fs (home_of filename)
  then already_linked (backup_of filename) (home_of filename)
  else if islink fs (home_of filename) then broken_link (home_of filename)
  else does_not_exist (backup_of filename).

(** Which of the three "Doing nothing" texts a turn prints: both loops
    decide it by the same two tests on the home path. *)
Inductive diagnosis : Type := AlreadyThere | BrokenLink | Missing.

Definition home_diagnosis (fs : FS) (filename : string) : diagnosis :=
  if exists_ fs (home_of filename) then AlreadyThere
  else if islink fs (home_of filename) then BrokenLink
  else Missing.

Definition backup_text (filename : string) (d : diagnosis) : string :=
  match d with
  | AlreadyThere => already_backed_up (home_of filename) (backup_of filename)
  | BrokenLink => broken_link (home_of filename)
  | Missing => does_not_exist (home_of filename)
  end.

Definition restore_text (filename : string) (d : diagnosis) : string :=
  match d with
  | AlreadyThere => already_linked (backup_of filename) (home_of filename)
  | BrokenLink => broken_link (home_of filename)
  | Missing => does_not_exist (backup_of filename)
  end.

(** The reading of the diagnostics of [restore] with the tests moved to
    the backup side. *)
Definition backup_side_diagnosis (fs : FS) (filename : string) : diagnosis :=
  if exists_ fs (backup_of filename) then AlreadyThere
  else if islink fs (backup_of filename) then BrokenLink
  else Missing.

(** What a dry run prints for one file. *)
Definition backup_line (fs : FS) (filename : string) : list string :=
  if backup_wanted fs filename then [backup_status filename]
  else if verbose self then [backup_diagnostic fs filename]
  else [].

Definition restore_line (fs : FS) (filename : string) : list string :=
  if restore_wanted fs filename then [restore_status filename]
  else if verbose self then [restore_diagnostic fs filename]
  else [].

(** A turn of [backup] that is about to copy onto a free backup path. *)
Definition copy_due (fs : FS) (filename : string) : bool :=
  negb (dry_run self) && backup_wanted fs filename
  && negb (exists_ fs (backup_of filename)).

End Tables.

(** ** Observing a run *)

(** The events a step added to the log. *)
Definition new_events (w w' : World) : list event :=
  drop (length (out w)) (out w').

Definition is_print (e : event) : bool :=
  match e with Printed _ => true | _ => false end.
Definition is_delete (e : event) : bool :=
  match e with Deleted _ => true | _ => false end.
Definition is_copy (e : event) : bool :=
  match e with Copied _ _ => true | _ => false end.
Definition is_mutation (e : event) : bool := is_delete e || is_copy e.

(** The event deletes [path] or copies onto it. *)
Definition writes_at (path : string) (e : event) : Prop :=
  match e with
  | Deleted p => p = path
  | Copied _ dst => dst = path
  | _ => False
  end.

(** Every write at [path] comes after a question answered yes. *)
Definition confirmed_before (path : string) (evs : list event) : Prop :=
  forall (pre : list event) (e : event) (post : list event),
    evs = (pre ++ e :: post)%list -> writes_at path e ->
    exists q, In (Asked q true) pre.

(** The same, as a check that runs: [yes] tells whether a question has
    been answered yes so far. *)
Fixpoint gated (yes : bool) (path : string) (evs : list event) : bool :=
  match evs with
  | [] => true
  | Asked _ a :: rest => gated (yes || a) path rest
  | Deleted p :: rest => (yes || negb (String.eqb p path)) && gated yes path rest
  | Copied _ d :: rest => (yes || negb (String.eqb d path)) && gated yes path rest
  | Printed _ :: rest => gated yes path rest
  end.

(** The turns of a loop: the file, the world the turn started in, and the
    events it added; the list stops with the turn that raised. *)
Record turn : Type := {
  turn_file : string;
  turn_before : World;
  turn_events : list event
}.

Fixpoint turns (body : string -> M unit) (xs : list string) (w : World)
    : list turn :=
  match xs with
  | [] => []
  | x :: rest =>
      let r := body x w in
      {| turn_file := x; turn_before := w;
         turn_events := new_events w (snd r) |}
      :: match fst r with
         | Ok _ => turns body rest (snd r)
         | Raise _ => []
         end
  end.

Definition count (p : event -> bool) (evs : list event) : nat :=
  length (List.filter p evs).

(** ** Readings of the requirements that the code does not meet *)

Section Readings.
Context {U : Utils}.
Variable self : ApplicationProfile.

(** Any entry at the backup path, a broken link included, is replaced only
    after a yes. *)
Definition never_silent_overwrite (filename : string) (w : World) : Prop :=
  is_Some (fs w !! backup_of self filename) ->
  confirmed_before (backup_of self filename)
    (new_events w (snd (backup_file self filename w))).

(** [restore] picks its diagnostic by looking at the backup side. *)
Definition restore_diagnoses_backup_side (filename : string) (w : World) : Prop :=
  restore_wanted self (fs w) filename = false -> verbose self = true ->
  new_events w (snd (restore_file self filename w)) =
  [Printed (restore_text self filename (backup_side_diagnosis self (fs w) filename))].

(** A second [backup] right after a first one, every question refused,
    changes nothing. *)
Definition refuses_all : Prop := forall shown q, confirm_answer shown q = false.

Definition second_backup_is_quiet (w : World) : Prop :=
  let w1 := snd (backup self w) in
  let w2 := snd (backup self w1) in
  fs w2 = fs w1 /\ Forall (fun e => is_mutation e = false) (new_events w1 w2).

Definition backup_idempotent (w : World) : Prop :=
  refuses_all -> second_backup_is_quiet w.

(** One status line for a file that meets the condition of the loop. *)
Definition one_status_line (wanted : FS -> string -> bool)
    (status : string -> string) (t : turn) : Prop :=
  wanted (fs (turn_before t)) (turn_file t) = true ->
  List.filter is_print (turn_events t) = [Printed (status (turn_file t))].

(** At most one call of [utils.copy] or [utils.delete] for each file. *)
Definition one_call_per_file (w : World) : Prop :=
  Forall (fun t => count is_mutation (turn_events t) <= 1
                   /\ one_status_line (backup_wanted self) (backup_status self) t)
         (turns (backup_file self) (files self) w)
  /\ Forall (fun t => count is_mutation (turn_events t) <= 1
                   /\ one_status_line (restore_wanted self) (restore_status self) t)
         (turns (restore_file self) (files self) w).

End Readings.

(** What the idempotence of [backup] needs from [utils.copy]: a source
    that is a file or a folder can be copied, the destination exists
    afterwards, and nothing else changes. *)
Record copy_settles (U : Utils) : Prop := {
  copy_succeeds : forall src dst (fs : FS),
    isfile fs src || isdir fs src = true ->
    exists fs', copy_effect src dst fs = Ok fs';
  copy_creates : forall src dst (fs fs' : FS),
    copy_effect src dst fs = Ok fs' -> exists_ fs' dst = true;
  copy_frame : forall src dst (fs fs' : FS) (p : string),
    copy_effect src dst fs = Ok fs' -> p <> dst -> fs' !! p = fs !! p
}.

(** ** Sample worlds *)

Definition everywhere (_ : string) : bool := true.

Definition world (l : list (string * node)) : World :=
  {| fs := list_to_map l; out := [] |}.

(** Home directory [/h]; the operator always says no, or always yes. *)
Definition operator_no : Utils := spec_utils "/h" false everywhere.
Definition operator_yes : Utils := spec_utils "/h" true everywhere.

(** The file set [{"x"}] backed up under [/b]. *)
Definition one_file : ApplicationProfile := profile "/b" ["x"] false false.
Definition one_file_verbose : ApplicationProfile := profile "/b" ["x"] false true.
Definition one_file_dry : ApplicationProfile := profile "/b" ["x"] true false.

Definition home_file_only : World :=
  world [("/h/x", Plain RegularFile)].
Definition link_in_backup : World :=
  world [("/h/x", Plain RegularFile); ("/b/x", Symlink (Some Other))].
Definition broken_link_in_backup : World :=
  world [("/h/x", Plain RegularFile); ("/b/x", Symlink None)].
Definition pipe_in_backup : World :=
  world [("/h/x", Plain RegularFile); ("/b/x", Plain Other)].
Definition folder_in_backup_only : World :=
  world [("/b/x", Plain Directory)].
Definition file_on_both_sides : World :=
  world [("/h/x", Plain RegularFile); ("/b/x", Plain RegularFile)].
Definition pipe_in_home : World :=
  world [("/h/x", Plain Other); ("/b/x", Plain RegularFile)].

(** The backup folder lies inside the home directory and the file set
    names a path below it. *)
Definition nested_profile : ApplicationProfile :=
  profile "/h/m" ["m/x"; "x"] false false.

(** ** Further observations on the two loops *)

(** The same profile with another verbosity. *)
Definition with_verbose (v : bool) (self : ApplicationProfile)
    : ApplicationProfile :=
  {| mackup := mackup self; files := files self;
     dry_run := dry_run self; verbose := v |}.

(** Everything in a log but the prints. *)
Definition silent (evs : list event) : list event :=
  List.filter (fun e => negb (is_print e)) evs.

(** An operator whose answer depends on the question only. *)
Definition answers_by_question {U : Utils} : Prop :=
  forall (shown shown' : list event) (q : string),
    confirm_answer shown q = confirm_answer shown' q.

Section Calls.
Context {U : Utils}.
Variable self : ApplicationProfile.

(** The calls [backup] may make: a copy from the home path of a listed file
    to its backup path, a delete of the backup path of a listed file. *)
Definition backup_call (e : event) : Prop :=
  match e with
  | Copied src dst =>
      exists f, In f (files self)
                /\ src = home_of self f /\ dst = backup_of self f
  | Deleted p => exists f, In f (files self) /\ p = backup_of self f
  | _ => True
  end.

(** The calls [restore] may make: a copy from the backup path of a listed
    file that the platform allows to its home path, and no delete. *)
Definition restore_call (e : event) : Prop :=
  match e with
  | Copied src dst =>
      exists f, In f (files self)
                /\ can_file_be_synced_on_current_platform f = true
                /\ src = backup_of self f /\ dst = home_of self f
  | Deleted _ => False
  | _ => True
  end.

(** Nothing to back up for the file: no file or folder at home, or a file
    or folder already in the backup. *)
Definition backup_not_needed (fs : FS) (f : string) : Prop :=
  isfile fs (home_of self f) || isdir fs (home_of self f) = false
  \/ isfile fs (backup_of self f) || isdir fs (backup_of self f) = true.

(** Nothing to restore for the file: no file or folder in the backup, or
    the platform does not allow the file. *)
Definition restore_not_possible (fs : FS) (f : string) : Prop :=
  isfile fs (backup_of self f) || isdir fs (backup_of self f) = false
  \/ can_file_be_synced_on_current_platform f = false.

(** A turn of [restore] that is about to copy onto a free home path. *)
Definition restore_due (fs : FS) (f : string) : bool :=
  negb (dry_run self) && restore_wanted self fs f
  && negb (exists_ fs (home_of self f)).

(** A second [restore] right after a first one changes nothing. *)
Definition second_restore_is_quiet (w : World) : Prop :=
  let w1 := snd (restore self w) in
  let w2 := snd (restore self w1) in
  fs w2 = fs w1 /\ Forall (fun e => is_mutation e = false) (new_events w1 w2).

End Calls.

(** A host on which every copy fails. *)
Definition full_disk : Utils :=
  {| HOME := "/h";
     confirm_answer := fun _ _ => true;
     copy_effect := fun _ dst _ => Raise (OSError ("No space left: " +:+ dst));
     delete_effect := spec_delete;
     can_file_be_synced_on_current_platform := everywhere |}.

(** A host on which nothing can be deleted. *)
Definition read_only_backup : Utils :=
  {| HOME := "/h";
     confirm_answer := fun _ _ => true;
     copy_effect := spec_copy;
     delete_effect := fun p _ => Raise (OSError ("Permission denied: " +:+ p));
     can_file_be_synced_on_current_platform := everywhere |}.

(** A host where no file may be synced. *)
Definition foreign_platform : Utils :=
  spec_utils "/h" true (fun _ => false).

Definition nothing_there : World := world [].
Definition broken_link_at_home : World :=
  world [("/h/x", Symlink None); ("/b/x", Plain RegularFile)].
Definition two_files : ApplicationProfile := profile "/b" ["x"; "y"] false false.

(** ** Whole runs against the file system they start from *)


Section FromTheStart.
Context {U : Utils}.
Variable self : ApplicationProfile.




End FromTheStart.

(** A pipe at the backup path of ["x"], and ["y"] not backed up yet. *)
Definition pipe_before_fresh_file : World :=
  world [("/h/x", Plain RegularFile); ("/b/x", Plain Other);
         ("/h/y", Plain RegularFile)].

(** A pipe at the home path of ["x"], and the folder ["y"] only in the
    backup. *)
Definition pipe_before_backed_up_folder : World :=
  world [("/h/x", Plain Other); ("/b/x", Plain RegularFile);
         ("/b/y", Plain Directory)].


(** Case analysis on the tests a turn of a loop makes, in the order in
    which they show up, remembering each answer. *)
Ltac read_fs w :=
  repeat (cbn [fs log out negb orb andb];
          match goal with
          | H : ?c = _ |- context [?c] => rewrite H
          | |- context [isfile (fs w) ?p] => destruct (isfile (fs w) p) eqn:?
          | |- context [isdir (fs w) ?p] => destruct (isdir (fs w) p) eqn:?
          | |- context [exists_ (fs w) ?p] => destruct (exists_ (fs w) p) eqn:?
          | |- context [islink (fs w) ?p] => destruct (islink (fs w) p) eqn:?
          | |- context [if ?c then _ else _] => is_var c; destruct c
          end).

Section TableLemmas.
Context {U : Utils}.
Variable self : ApplicationProfile.

Lemma backup_file_eq (filename : string) (w : World) :
  backup_file self filename w =
  if backup_wanted self (fs w) filename then
    let w1 := log (Printed (backup_status self filename)) w in
    if dry_run self then (Ok tt, w1) else
    if exists_ (fs w) (backup_of self filename) then
      match file_type (fs w) (backup_of self filename) with
      | Some ty =>
          let q := backup_question ty (backup_of self filename) in
          let a := confirm_answer (out w1) q in
          let w2 := log (Asked q a) w1 in
          if a
          then (utils_delete (backup_of self filename) ;;
                utils_copy (home_of self filename) (backup_of self filename)) w2
          else (Ok tt, w2)
      | None => (Raise (ValueError (unsupported_file (backup_of self filename))), w1)
      end
    else utils_copy (home_of self filename) (backup_of self filename) w1
  else if verbose self
       then (Ok tt, log (Printed (backup_diagnostic self (fs w) filename)) w)
       else (Ok tt, w).
Proof.
  unfold backup_file, backup_wanted, backup_status, backup_diagnostic,
    file_type, home_of, backup_of, getFilepaths.
  cbv [fst snd name_it_right andM orM notM bind ret raise print
       os_path_isfile os_path_isdir os_path_islink os_path_exists utils_confirm].
  generalize (verbose self) (dry_run self); intros v d.
  read_fs w; try reflexivity.
  all: destruct (confirm_answer _ _); reflexivity.
Qed.

Lemma restore_file_eq (filename : string) (w : World) :
  restore_file self filename w =
  if restore_wanted self (fs w) filename then
    let w1 := log (Printed (restore_status self filename)) w in
    if dry_run self then (Ok tt, w1) else
    if exists_ (fs w) (home_of self filename) then
      match file_type (fs w) (home_of self filename) with
      | Some ty =>
          let q := restore_question ty filename in
          let a := confirm_answer (out w1) q in
          let w2 := log (Asked q a) w1 in
          if a
          then utils_copy (backup_of self filename) (home_of self filename) w2
          else (Ok tt, w2)
      | None => (Raise (ValueError (unsupported_file (backup_of self filename))), w1)
      end
    else utils_copy (backup_of self filename) (home_of self filename) w1
  else if verbose self
       then (Ok tt, log (Printed (restore_diagnostic self (fs w) filename)) w)
       else (Ok tt, w).
Proof.
  unfold restore_file, restore_wanted, restore_status, restore_diagnostic,
    file_type, home_of, backup_of, getFilepaths.
  cbv [fst snd name_it_right andM orM notM bind ret raise print
       os_path_isfile os_path_isdir os_path_islink os_path_exists utils_confirm].
  generalize (verbose self) (dry_run self)
    (can_file_be_synced_on_current_platform filename); intros v d s.
  read_fs w; try reflexivity.
  all: destruct (confirm_answer _ _); reflexivity.
Qed.

End TableLemmas.

(** ** Logs and loops *)

Lemma new_events_app (w : World) (f : FS) (evs : list event) :
  new_events w {| fs := f; out := (out w ++ evs)%list |} = evs.
Proof. unfold new_events; cbn [out]. apply drop_app_length. Qed.

Lemma new_events_same (w : World) : new_events w w = [].
Proof. unfold new_events. apply drop_all. Qed.

(** Bring the log of a world reached in a few steps to the shape
    [out w ++ evs] and read [evs] off. *)
Ltac events :=
  unfold log; cbn [fst snd fs out];
  rewrite <- ?app_assoc; cbn [app];
  rewrite ?new_events_app, ?new_events_same.

Lemma for_each_app (body : string -> M unit) (xs ys : list string) (w : World) :
  for_each body (xs ++ ys)%list w =
  match for_each body xs w with
  | (Ok _, w') => for_each body ys w'
  | (Raise e, w') => (Raise e, w')
  end.
Proof.
  revert w. induction xs as [|x xs IH]; intros w; cbn [app for_each].
  - reflexivity.
  - unfold bind. destruct (body x w) as [[[]|e] w']; [apply IH | reflexivity].
Qed.

Lemma gated_sound (path : string) (evs : list event) (yes : bool) :
  gated yes path evs = true ->
  forall (pre : list event) (e : event) (post : list event),
    evs = (pre ++ e :: post)%list -> writes_at path e ->
    yes = true \/ exists q, In (Asked q true) pre.
Proof.
  revert yes. induction evs as [|ev evs IH]; intros yes Hg pre e post Heq Hw.
  - destruct pre; discriminate.
  - destruct pre as [|p pre]; cbn [app] in Heq; injection Heq as -> ->.
    + destruct e as [t|q a|p|s d]; cbn in Hw; try contradiction; subst;
        cbn [gated] in Hg; rewrite String.eqb_refl in Hg;
        (destruct yes; [left; reflexivity | discriminate]).
    + assert (Hrest : exists yes', gated yes' path (pre ++ e :: post)%list = true
                /\ (yes' = true -> yes = true \/ exists q, p = Asked q true)).
      { destruct p as [t|q a|p|s d]; cbn [gated] in Hg.
        - exists yes; split; [exact Hg | auto].
        - exists (yes || a); split; [exact Hg|].
          destruct yes; [auto|]. cbn. intros ->. right; eauto.
        - apply andb_prop in Hg as [_ Hg]. exists yes; split; [exact Hg | auto].
        - apply andb_prop in Hg as [_ Hg]. exists yes; split; [exact Hg | auto]. }
      destruct Hrest as (yes' & Hg' & Hyes).
      destruct (IH yes' Hg' pre e post eq_refl Hw) as [Hy | [q Hq]].
      * destruct (Hyes Hy) as [H | [q ->]]; [left; exact H|].
        right. exists q. left. reflexivity.
      * right. exists q. right. exact Hq.
Qed.

Lemma gated_confirmed (path : string) (evs : list event) :
  gated false path evs = true -> confirmed_before path evs.
Proof.
  intros Hg pre e post Heq Hw.
  destruct (gated_sound path evs false Hg pre e post Heq Hw) as [H|H];
    [discriminate | exact H].
Qed.

(** ** Dry runs *)

Section DryRun.
Context {U : Utils}.
Variable self : ApplicationProfile.
Hypothesis dry : dry_run self = true.

Lemma dry_backup_turn (x : string) (w : World) :
  backup_file self x w =
  (Ok tt, {| fs := fs w;
             out := (out w ++ map Printed (backup_line self (fs w) x))%list |}).
Proof.
  rewrite backup_file_eq, dry. unfold backup_line, log.
  destruct (backup_wanted self (fs w) x); [|destruct (verbose self)];
    cbn [map]; try reflexivity.
  rewrite app_nil_r. destruct w; reflexivity.
Qed.

Lemma dry_backup_loop (xs : list string) (w : World) :
  for_each (backup_file self) xs w =
  (Ok tt, {| fs := fs w;
             out := (out w ++ map Printed
                       (flat_map (backup_line self (fs w)) xs))%list |}).
Proof.
  revert w. induction xs as [|x xs IH]; intros w; cbn [for_each flat_map].
  - unfold ret. cbn. rewrite app_nil_r. destruct w; reflexivity.
  - unfold bind. rewrite dry_backup_turn, IH. cbn [fs out].
    rewrite map_app, app_assoc. reflexivity.
Qed.

Lemma dry_restore_turn (x : string) (w : World) :
  restore_file self x w =
  (Ok tt, {| fs := fs w;
             out := (out w ++ map Printed (restore_line self (fs w) x))%list |}).
Proof.
  rewrite restore_file_eq, dry. unfold restore_line, log.
  destruct (restore_wanted self (fs w) x); [|destruct (verbose self)];
    cbn [map]; try reflexivity.
  rewrite app_nil_r. destruct w; reflexivity.
Qed.

Lemma dry_restore_loop (xs : list string) (w : World) :
  for_each (restore_file self) xs w =
  (Ok tt, {| fs := fs w;
             out := (out w ++ map Printed
                       (flat_map (restore_line self (fs w)) xs))%list |}).
Proof.
  revert w. induction xs as [|x xs IH]; intros w; cbn [for_each flat_map].
  - unfold ret. cbn. rewrite app_nil_r. destruct w; reflexivity.
  - unfold bind. rewrite dry_restore_turn, IH. cbn [fs out].
    rewrite map_app, app_assoc. reflexivity.
Qed.

End DryRun.

(** C2.  With the dry-run flag set, [backup] and [restore] end normally on
    every file list and every file system, leave the file system as it was,
    and add to the log nothing but prints, whatever the operator would have
    answered: no copy, no delete, no question.  What is printed is, file by
    file, the status line when the tests on the file system select the
    file, and otherwise the diagnostic when verbose. *)
Theorem dry_run_is_read_only {U : Utils} (self : ApplicationProfile) (w : World) :
  dry_run self = true ->
  backup self w =
    (Ok tt, {| fs := fs w;
               out := (out w ++ map Printed
                         (flat_map (backup_line self (fs w)) (files self)))%list |})
  /\ restore self w =
    (Ok tt, {| fs := fs w;
               out := (out w ++ map Printed
                         (flat_map (restore_line self (fs w)) (files self)))%list |})
  /\ Forall (fun e => is_print e = true) (new_events w (snd (backup self w)))
  /\ Forall (fun e => is_print e = true) (new_events w (snd (restore self w))).
Proof.
  intros dry. unfold backup, restore.
  rewrite (dry_backup_loop self dry), (dry_restore_loop self dry).
  repeat split; cbn [snd]; rewrite new_events_app;
    apply List.Forall_forall; intros e He;
    apply in_map_iff in He as (t & <- & _);
    reflexivity.
Qed.

(** ** One turn, case by case *)

Lemma for_each_next (body : string -> M unit) (x : string) (rest : list string)
    (w : World) :
  fst (body x w) = Ok tt ->
  for_each body (x :: rest) w = for_each body rest (snd (body x w)).
Proof.
  intros H. cbn [for_each]. unfold bind.
  destruct (body x w) as [[[]|e] w']; cbn in *; [reflexivity | discriminate].
Qed.

Lemma for_each_raise (body : string -> M unit) (x : string) (rest : list string)
    (w : World) (e : exn) :
  fst (body x w) = Raise e ->
  for_each body (x :: rest) w = body x w.
Proof.
  intros H. cbn [for_each]. unfold bind.
  destruct (body x w) as [[[]|e'] w']; cbn in *; [discriminate | reflexivity].
Qed.

(** Split a turn of [backup] into the paths the code can take. *)
Ltac backup_paths self f w :=
  rewrite ?(backup_file_eq self f w);
  destruct (backup_wanted self (fs w) f) eqn:Hwant;
  [ destruct (dry_run self) eqn:Hdry;
    [ | destruct (exists_ (fs w) (backup_of self f)) eqn:Hex;
        [ destruct (file_type (fs w) (backup_of self f)) as [ty'|] eqn:Hty;
          [ cbn zeta;
            destruct (confirm_answer _ _) eqn:Hans;
            [ unfold bind, utils_delete, utils_copy; cbn [fs out log];
              destruct (delete_effect _ _) as [fs1|e1] eqn:Hdel;
              [ cbn [fs out log];
                destruct (copy_effect _ _ _) as [fs2|e2] eqn:Hcopy | ]
            | ]
          | ]
        | unfold utils_copy; cbn [fs out log];
          destruct (copy_effect _ _ _) as [fs2|e2] eqn:Hcopy ] ]
  | destruct (verbose self) eqn:Hverb ];
  cbn zeta; events.

(** Split a turn of [restore] into the paths the code can take. *)
Ltac restore_paths self f w :=
  rewrite ?(restore_file_eq self f w);
  destruct (restore_wanted self (fs w) f) eqn:Hwant;
  [ destruct (dry_run self) eqn:Hdry;
    [ | destruct (exists_ (fs w) (home_of self f)) eqn:Hex;
        [ destruct (file_type (fs w) (home_of self f)) as [ty'|] eqn:Hty;
          [ cbn zeta;
            destruct (confirm_answer _ _) eqn:Hans;
            [ unfold utils_copy; cbn [fs out log];
              destruct (copy_effect _ _ _) as [fs2|e2] eqn:Hcopy
            | ]
          | ]
        | unfold utils_copy; cbn [fs out log];
          destruct (copy_effect _ _ _) as [fs2|e2] eqn:Hcopy ] ]
  | destruct (verbose self) eqn:Hverb ];
  cbn zeta; events.

(** ** Backup *)



Lemma dry_run_is_read_only_witness :
  dry_run one_file_dry = true
  /\ backup (U := operator_yes) one_file_dry link_in_backup
     = (Ok tt, {| fs := fs link_in_backup;
                  out := [Printed "Backing up x ..."] |})
  /\ restore (U := operator_yes) one_file_dry file_on_both_sides
     = (Ok tt, {| fs := fs file_on_both_sides;
                  out := [Printed "Restoring x ..."] |}).
Proof.
  assert (H : dry_run one_file_dry = true) by reflexivity.
  refine (conj H (conj _ _)).
  - exact (proj1 (@dry_run_is_read_only operator_yes one_file_dry
                    link_in_backup H)).
  - exact (proj1 (proj2 (@dry_run_is_read_only operator_yes one_file_dry
                           file_on_both_sides H))).
Defined.


Lemma absent_not_seen (fs : FS) (p : string) :
  fs !! p = None ->
  isfile fs p = false /\ isdir fs p = false /\ exists_ fs p = false.
Proof. intros H. unfold isfile, isdir, exists_, stat. rewrite H. auto. Qed.

Lemma broken_link_not_seen (fs : FS) (p : string) :
  fs !! p = Some (Symlink None) ->
  isfile fs p = false /\ isdir fs p = false /\ exists_ fs p = false.
Proof. intros H. unfold isfile, isdir, exists_, stat. rewrite H. auto. Qed.



Example broken_link_run :
  backup (U := operator_no) one_file broken_link_in_backup
  = (Ok tt,
     {| fs := <["/b/x" := Plain RegularFile]> (fs broken_link_in_backup);
        out := [Printed "Backing up x ..."; Copied "/h/x" "/b/x"] |}).
Proof. vm_compute. reflexivity. Qed.

(** C4, as stated, fails: with a broken symbolic link at the backup path
    and a regular file at home, [backup] copies onto the backup path
    although no question was asked. *)
Lemma broken_link_is_overwritten_silently :
  ~ never_silent_overwrite (U := operator_no) one_file "x" broken_link_in_backup.
Proof.
  intros H.
  assert (Hentry : is_Some (fs broken_link_in_backup !! backup_of (U := operator_no) one_file "x")).
  { exists (Symlink None). vm_compute. reflexivity. }
  specialize (H Hentry [Printed "Backing up x ..."] (Copied "/h/x" "/b/x") []).
  destruct H as [q Hq].
  - vm_compute. reflexivity.
  - vm_compute. reflexivity.
  - destruct Hq as [Hq|[]]. discriminate.
Qed.

(** C4, amended.  Whenever [os.path.exists] reports an entry at the backup
    path (a regular file, a directory, an object of another kind, or a
    symbolic link that resolves), a turn of [backup] deletes it or copies
    onto it only after a question answered yes.  A broken symbolic link at
    the backup path is not reported: with a regular file or a directory at
    home, a non-dry-run turn prints the status line and copies onto it
    without asking. *)
Theorem backup_replaces_existing_entry_only_after_yes {U : Utils}
    (self : ApplicationProfile) (f : string) (w : World) :
  (exists_ (fs w) (backup_of self f) = true ->
   confirmed_before (backup_of self f)
     (new_events w (snd (backup_file self f w))))
  /\ (dry_run self = false ->
      isfile (fs w) (home_of self f) || isdir (fs w) (home_of self f) = true ->
      fs w !! backup_of self f = Some (Symlink None) ->
      new_events w (snd (backup_file self f w))
      = [Printed (backup_status self f);
         Copied (home_of self f) (backup_of self f)]).
Proof.
  split.
  - intros Hseen. apply gated_confirmed.
    backup_paths self f w; try congruence; cbn [gated orb andb];
      rewrite ?String.eqb_refl; reflexivity.
  - intros Hnodry Hhome Hbroken.
    destruct (broken_link_not_seen _ _ Hbroken) as (Hbf & Hbd & Hbe).
    assert (Hw : backup_wanted self (fs w) f = true).
    { unfold backup_wanted. rewrite Hhome, Hbf, Hbd. reflexivity. }
    backup_paths self f w; congruence.
Qed.

Lemma backup_replaces_existing_entry_only_after_yes_witness :
  exists_ (fs link_in_backup) "/b/x" = true
  /\ confirmed_before "/b/x"
       (new_events link_in_backup
          (snd (backup_file (U := operator_yes) one_file "x" link_in_backup)))
  /\ dry_run one_file = false
  /\ isfile (fs broken_link_in_backup) "/h/x"
     || isdir (fs broken_link_in_backup) "/h/x" = true
  /\ fs broken_link_in_backup !! "/b/x" = Some (Symlink None)
  /\ new_events broken_link_in_backup
       (snd (backup_file (U := operator_yes) one_file "x" broken_link_in_backup))
     = [Printed "Backing up x ..."; Copied "/h/x" "/b/x"].
Proof.
  assert (H0 : exists_ (fs link_in_backup) "/b/x" = true)
    by (vm_compute; reflexivity).
  assert (H1 : dry_run one_file = false) by reflexivity.
  assert (H2 : isfile (fs broken_link_in_backup) "/h/x"
               || isdir (fs broken_link_in_backup) "/h/x" = true)
    by (vm_compute; reflexivity).
  assert (H3 : fs broken_link_in_backup !! "/b/x" = Some (Symlink None))
    by (vm_compute; reflexivity).
  refine (conj H0 (conj _ (conj H1 (conj H2 (conj H3 _))))).
  - exact (proj1 (@backup_replaces_existing_entry_only_after_yes operator_yes
                    one_file "x" link_in_backup) H0).
  - exact (proj2 (@backup_replaces_existing_entry_only_after_yes operator_yes
                    one_file "x" broken_link_in_backup) H1 H2 H3).
Defined.

Lemma unnamed_kind (fs : FS) (p : string) :
  isfile fs p = false -> isdir fs p = false -> islink fs p = false ->
  file_type fs p = None.
Proof. intros H1 H2 H3. unfold file_type. rewrite H1, H2, H3. reflexivity. Qed.

(** C7.  In a non-dry-run, when a turn reaches the conflict check and the
    path it inspects (the backup path in [backup], the home path in
    [restore]) exists but is neither a regular file, nor a directory, nor a
    symbolic link, the turn raises [ValueError] right after the status
    line: no question, no delete, no copy, the file system as it was.  The
    exception leaves the loop: the files after this one are not looked
    at. *)
Theorem unsupported_kind_is_fatal {U : Utils} (self : ApplicationProfile)
    (earlier : list string) (f : string) (rest : list string) (w0 w : World) :
  dry_run self = false ->
  (for_each (backup_file self) earlier w0 = (Ok tt, w) ->
   isfile (fs w) (home_of self f) || isdir (fs w) (home_of self f) = true ->
   exists_ (fs w) (backup_of self f) = true ->
   isfile (fs w) (backup_of self f) = false ->
   isdir (fs w) (backup_of self f) = false ->
   islink (fs w) (backup_of self f) = false ->
   for_each (backup_file self) (earlier ++ f :: rest)%list w0
   = (Raise (ValueError (unsupported_file (backup_of self f))),
      {| fs := fs w;
         out := (out w ++ [Printed (backup_status self f)])%list |}))
  /\ (for_each (restore_file self) earlier w0 = (Ok tt, w) ->
      restore_wanted self (fs w) f = true ->
      exists_ (fs w) (home_of self f) = true ->
      isfile (fs w) (home_of self f) = false ->
      isdir (fs w) (home_of self f) = false ->
      islink (fs w) (home_of self f) = false ->
      for_each (restore_file self) (earlier ++ f :: rest)%list w0
      = (Raise (ValueError (unsupported_file (backup_of self f))),
         {| fs := fs w;
            out := (out w ++ [Printed (restore_status self f)])%list |})).
Proof.
  intros Hnodry. split.
  - intros Hdone Hhome Hseen Hf Hd Hl.
    assert (Hw : backup_wanted self (fs w) f = true).
    { unfold backup_wanted. rewrite Hhome, Hf, Hd. reflexivity. }
    assert (Hturn : backup_file self f w
              = (Raise (ValueError (unsupported_file (backup_of self f))),
                 log (Printed (backup_status self f)) w)).
    { rewrite backup_file_eq, Hw, Hnodry, Hseen, (unnamed_kind _ _ Hf Hd Hl).
      reflexivity. }
    rewrite for_each_app, Hdone.
    rewrite (for_each_raise _ f rest w
               (ValueError (unsupported_file (backup_of self f))));
      rewrite Hturn; reflexivity.
  - intros Hdone Hw Hseen Hf Hd Hl.
    assert (Hturn : restore_file self f w
              = (Raise (ValueError (unsupported_file (backup_of self f))),
                 log (Printed (restore_status self f)) w)).
    { rewrite restore_file_eq, Hw, Hnodry, Hseen, (unnamed_kind _ _ Hf Hd Hl).
      reflexivity. }
    rewrite for_each_app, Hdone.
    rewrite (for_each_raise _ f rest w
               (ValueError (unsupported_file (backup_of self f))));
      rewrite Hturn; reflexivity.
Qed.

Lemma unsupported_kind_is_fatal_witness :
  dry_run one_file = false
  /\ for_each (backup_file (U := operator_yes) one_file) ["x"; "y"] pipe_in_backup
     = (Raise (ValueError "Unsupported file: /b/x"),
        {| fs := fs pipe_in_backup; out := [Printed "Backing up x ..."] |})
  /\ for_each (restore_file (U := operator_yes) one_file) ["x"; "y"] pipe_in_home
     = (Raise (ValueError "Unsupported file: /b/x"),
        {| fs := fs pipe_in_home; out := [Printed "Restoring x ..."] |}).
Proof.
  assert (H : dry_run one_file = false) by reflexivity.
  refine (conj H (conj _ _)).
  - refine (proj1 (@unsupported_kind_is_fatal operator_yes one_file [] "x" ["y"]
                     pipe_in_backup pipe_in_backup H) _ _ _ _ _ _);
      vm_compute; reflexivity.
  - refine (proj2 (@unsupported_kind_is_fatal operator_yes one_file [] "x" ["y"]
                     pipe_in_home pipe_in_home H) _ _ _ _ _ _);
      vm_compute; reflexivity.
Defined.

(** ** Restore *)



Example restore_without_backup_run :
  new_events home_file_only
    (snd (restore (U := operator_no) one_file_verbose home_file_only))
  = [Printed (already_linked "/b/x" "/h/x")].
Proof. vm_compute. reflexivity. Qed.

(** C5, as stated, fails: in a verbose [restore] with nothing at the backup
    path and a regular file at home, the text printed is the "already
    linked" one, not the "does not exist" one that the backup side would
    select. *)
Lemma restore_diagnostic_looks_at_home :
  ~ restore_diagnoses_backup_side (U := operator_no) one_file_verbose "x"
      home_file_only.
Proof.
  intros H.
  assert (H1 : restore_wanted (U := operator_no) one_file_verbose
                 (fs home_file_only) "x" = false) by (vm_compute; reflexivity).
  specialize (H H1 eq_refl). vm_compute in H. discriminate H.
Qed.

(** C5, amended.  When the condition of [restore] fails for a file and
    verbosity is on, the turn prints exactly one diagnostic and does
    nothing else.  The diagnostic is chosen by the same two tests on the
    home path as in [backup]: "already linked" (naming the backup path and
    the home path) when the home path exists, "broken link" when the home
    path is a broken symbolic link, "does not exist" (naming the backup
    path) otherwise.  [backup] chooses among its own three texts by the
    same diagnosis. *)
Theorem restore_diagnostic_follows_home {U : Utils} (self : ApplicationProfile)
    (f : string) (w : World) :
  verbose self = true ->
  (restore_wanted self (fs w) f = false ->
   restore_file self f w
   = (Ok tt, log (Printed (restore_text self f (home_diagnosis self (fs w) f))) w))
  /\ (backup_wanted self (fs w) f = false ->
      backup_file self f w
      = (Ok tt, log (Printed (backup_text self f (home_diagnosis self (fs w) f))) w))
  /\ home_diagnosis self (fs w) f
     = (if exists_ (fs w) (home_of self f) then AlreadyThere
        else if islink (fs w) (home_of self f) then BrokenLink
        else Missing).
Proof.
  intros Hv. split; [|split].
  - intros Hw. rewrite restore_file_eq, Hw, Hv.
    unfold restore_diagnostic, restore_text, home_diagnosis.
    destruct (exists_ _ _); [|destruct (islink _ _)]; reflexivity.
  - intros Hw. rewrite backup_file_eq, Hw, Hv.
    unfold backup_diagnostic, backup_text, home_diagnosis.
    destruct (exists_ _ _); [|destruct (islink _ _)]; reflexivity.
  - reflexivity.
Qed.

Lemma restore_diagnostic_follows_home_witness :
  verbose one_file_verbose = true
  /\ restore_wanted (U := operator_no) one_file_verbose (fs home_file_only) "x"
     = false
  /\ restore_file (U := operator_no) one_file_verbose "x" home_file_only
     = (Ok tt,
        log (Printed (already_linked "/b/x" "/h/x")) home_file_only).
Proof.
  assert (H1 : verbose one_file_verbose = true) by reflexivity.
  assert (H2 : restore_wanted (U := operator_no) one_file_verbose
                 (fs home_file_only) "x" = false) by (vm_compute; reflexivity).
  refine (conj H1 (conj H2 _)).
  exact (proj1 (@restore_diagnostic_follows_home operator_no one_file_verbose
                  "x" home_file_only H1) H2).
Defined.

(** ** Whole runs *)

Section Runs.
Variable body : string -> M unit.
Hypothesis body_extends : forall x w,
  out (snd (body x w)) = (out w ++ new_events w (snd (body x w)))%list.

Lemma loop_events (xs : list string) (w : World) :
  out (snd (for_each body xs w))
  = (out w ++ concat (map turn_events (turns body xs w)))%list.
Proof.
  revert w. induction xs as [|x xs IH]; intros w; cbn [for_each turns map concat].
  - cbn. rewrite app_nil_r. reflexivity.
  - unfold bind. rewrite (surjective_pairing (body x w)).
    cbn [fst snd turn_events].
    destruct (fst (body x w)) as [[]|e]; cbn [snd map concat].
    + rewrite IH, (body_extends x w) at 1. rewrite <- app_assoc. reflexivity.
    + rewrite app_nil_r. apply body_extends.
Qed.

Lemma turns_Forall (Q : turn -> Prop) :
  (forall x w, Q {| turn_file := x; turn_before := w;
                    turn_events := new_events w (snd (body x w)) |}) ->
  forall xs w, Forall Q (turns body xs w).
Proof.
  intros HQ xs. induction xs as [|x xs IH]; intros w; cbn [turns].
  - constructor.
  - constructor; [apply HQ|].
    destruct (fst (body x w)); [apply IH | constructor].
Qed.

Lemma loop_Forall (P : event -> Prop) :
  (forall x w, Forall P (new_events w (snd (body x w)))) ->
  forall xs w, Forall P (new_events w (snd (for_each body xs w))).
Proof.
  intros HP xs w. unfold new_events at 1. rewrite loop_events, drop_app_length.
  pose proof (turns_Forall (fun t => Forall P (turn_events t)) HP xs w) as H.
  induction H as [|t ts Ht _ IH]; cbn [map concat].
  - constructor.
  - apply Forall_app. split; assumption.
Qed.

End Runs.

Lemma backup_file_extends {U : Utils} (self : ApplicationProfile) (f : string)
    (w : World) :
  out (snd (backup_file self f w))
  = (out w ++ new_events w (snd (backup_file self f w)))%list.
Proof. backup_paths self f w; rewrite ?app_nil_r; reflexivity. Qed.

Lemma restore_file_extends {U : Utils} (self : ApplicationProfile) (f : string)
    (w : World) :
  out (snd (restore_file self f w))
  = (out w ++ new_events w (snd (restore_file self f w)))%list.
Proof. restore_paths self f w; rewrite ?app_nil_r; reflexivity. Qed.

Lemma restore_turn_never_deletes {U : Utils} (self : ApplicationProfile)
    (f : string) (w : World) :
  Forall (fun e => is_delete e = false)
         (new_events w (snd (restore_file self f w))).
Proof. restore_paths self f w; repeat constructor. Qed.

(** C10.  [restore] never calls [utils.delete]: whatever the file list,
    the file system and the operator's answers, no delete is among the
    events of a run.  When it replaces an existing home entry after a yes,
    the turn is status line, question, one copy from backup to home;
    [backup] in the same situation deletes the backup entry first and then
    copies (the copy is skipped only if the delete raised). *)
Theorem restore_never_deletes {U : Utils} (self : ApplicationProfile)
    (w : World) (f : string) (ty : string) :
  Forall (fun e => is_delete e = false) (new_events w (snd (restore self w)))
  /\ (dry_run self = false ->
      restore_wanted self (fs w) f = true ->
      exists_ (fs w) (home_of self f) = true ->
      file_type (fs w) (home_of self f) = Some ty ->
      confirm_answer (out w ++ [Printed (restore_status self f)])%list
        (restore_question ty f) = true ->
      new_events w (snd (restore_file self f w))
      = [Printed (restore_status self f);
         Asked (restore_question ty f) true;
         Copied (backup_of self f) (home_of self f)])
  /\ (dry_run self = false ->
      backup_wanted self (fs w) f = true ->
      exists_ (fs w) (backup_of self f) = true ->
      file_type (fs w) (backup_of self f) = Some ty ->
      confirm_answer (out w ++ [Printed (backup_status self f)])%list
        (backup_question ty (backup_of self f)) = true ->
      new_events w (snd (backup_file self f w))
      = Printed (backup_status self f)
        :: Asked (backup_question ty (backup_of self f)) true
        :: Deleted (backup_of self f)
        :: match delete_effect (backup_of self f) (fs w) with
           | Ok _ => [Copied (home_of self f) (backup_of self f)]
           | Raise _ => []
           end).
Proof.
  split; [|split].
  - unfold restore.
    apply (loop_Forall _ (restore_file_extends self)).
    apply restore_turn_never_deletes.
  - intros Hnodry Hw Hseen Hnamed Hyes.
    rewrite restore_file_eq, Hw, Hnodry, Hseen, Hnamed. cbn zeta.
    unfold log; cbn [fs out]. rewrite Hyes.
    unfold utils_copy; cbn [fs out log].
    destruct (copy_effect _ _ _); events; reflexivity.
  - intros Hnodry Hw Hseen Hnamed Hyes.
    rewrite backup_file_eq, Hw, Hnodry, Hseen, Hnamed. cbn zeta.
    unfold log; cbn [fs out]. rewrite Hyes.
    unfold bind, utils_delete, utils_copy; cbn [fs out log].
    destruct (delete_effect _ _); [destruct (copy_effect _ _ _)|];
      events; reflexivity.
Qed.

Lemma restore_never_deletes_witness :
  dry_run one_file = false
  /\ restore_wanted (U := operator_yes) one_file (fs file_on_both_sides) "x" = true
  /\ exists_ (fs file_on_both_sides) "/h/x" = true
  /\ file_type (fs file_on_both_sides) "/h/x" = Some "file"
  /\ new_events file_on_both_sides
       (snd (restore_file (U := operator_yes) one_file "x" file_on_both_sides))
     = [Printed "Restoring x ...";
        Asked (restore_question "file" "x") true;
        Copied "/b/x" "/h/x"]
  /\ new_events link_in_backup
       (snd (backup_file (U := operator_yes) one_file "x" link_in_backup))
     = [Printed "Backing up x ...";
        Asked (backup_question "link" "/b/x") true;
        Deleted "/b/x";
        Copied "/h/x" "/b/x"].
Proof.
  assert (H1 : dry_run one_file = false) by reflexivity.
  assert (H2 : restore_wanted (U := operator_yes) one_file
                 (fs file_on_both_sides) "x" = true) by (vm_compute; reflexivity).
  assert (H3 : exists_ (fs file_on_both_sides) "/h/x" = true)
    by (vm_compute; reflexivity).
  assert (H4 : file_type (fs file_on_both_sides) "/h/x" = Some "file")
    by (vm_compute; reflexivity).
  refine (conj H1 (conj H2 (conj H3 (conj H4 (conj _ _))))).
  - exact (proj1 (proj2 (@restore_never_deletes operator_yes one_file
                           file_on_both_sides "x" "file")) H1 H2 H3 H4 eq_refl).
  - refine (proj2 (proj2 (@restore_never_deletes operator_yes one_file
                            link_in_backup "x" "link")) H1 _ _ _ eq_refl);
      vm_compute; reflexivity.
Defined.

Example confirmed_replacement_run :
  new_events link_in_backup
    (snd (backup (U := operator_yes) one_file link_in_backup))
  = [Printed "Backing up x ...";
     Asked (backup_question "link" "/b/x") true;
     Deleted "/b/x";
     Copied "/h/x" "/b/x"].
Proof. vm_compute. reflexivity. Qed.

(** C9, as stated, fails: when [backup] replaces an entry after a yes, the
    turn for that one file calls [utils.delete] and then [utils.copy]. *)
Lemma replacing_takes_a_delete_and_a_copy :
  ~ one_call_per_file (U := operator_yes) one_file link_in_backup.
Proof.
  intros [H _].
  apply Forall_inv in H. destruct H as [H _].
  vm_compute in H. lia.
Qed.

(** The calls and the status line of each turn of a run. *)
Lemma turns_are_bounded {U : Utils} (self : ApplicationProfile)
    (w : World) :
  Forall (fun t => count is_copy (turn_events t) <= 1
                   /\ count is_delete (turn_events t) <= 1
                   /\ one_status_line (backup_wanted self) (backup_status self) t)
         (turns (backup_file self) (files self) w)
  /\ Forall (fun t => count is_copy (turn_events t) <= 1
                      /\ count is_delete (turn_events t) = 0
                      /\ one_status_line (restore_wanted self) (restore_status self) t)
            (turns (restore_file self) (files self) w)
  /\ new_events w (snd (backup self w))
     = concat (map turn_events (turns (backup_file self) (files self) w))
  /\ new_events w (snd (restore self w))
     = concat (map turn_events (turns (restore_file self) (files self) w)).
Proof.
  split; [|split; [|split]].
  - apply turns_Forall. intros x w'.
    unfold one_status_line; cbn [turn_events turn_before turn_file].
    backup_paths self x w'; unfold count; cbn [List.filter is_copy is_delete is_print length];
      (split; [lia | split; [lia | intros; congruence]]).
  - apply turns_Forall. intros x w'.
    unfold one_status_line; cbn [turn_events turn_before turn_file].
    restore_paths self x w'; unfold count; cbn [List.filter is_copy is_delete is_print length];
      (split; [lia | split; [reflexivity | intros; congruence]]).
  - unfold new_events, backup.
    rewrite (loop_events _ (backup_file_extends self)). apply drop_app_length.
  - unfold new_events, restore.
    rewrite (loop_events _ (restore_file_extends self)). apply drop_app_length.
Qed.

(** ** Running [backup] twice *)

Lemma same_entry (fs fs' : FS) (p : string) :
  fs' !! p = fs !! p ->
  isfile fs' p = isfile fs p /\ isdir fs' p = isdir fs p
  /\ exists_ fs' p = exists_ fs p.
Proof.
  intros H. unfold isfile, isdir, exists_, stat. rewrite H. auto.
Qed.

Lemma spec_copy_settles (home : string) (answer : bool)
    (supported : string -> bool) :
  copy_settles (spec_utils home answer supported).
Proof.
  split; cbn [copy_effect spec_utils]; unfold spec_copy.
  - intros src dst fs H. unfold isfile, isdir in H.
    destruct (stat fs src) as [[]|]; try discriminate; eauto.
  - intros src dst fs fs' H.
    destruct (stat fs src) as [[]|]; try discriminate;
      injection H as <-; unfold exists_, stat; rewrite lookup_insert_eq;
      reflexivity.
  - intros src dst fs fs' p H Hne.
    destruct (stat fs src) as [[]|]; try discriminate;
      injection H as <-; apply lookup_insert_ne; congruence.
Qed.

Section Idempotence.
Context {U : Utils}.
Variable self : ApplicationProfile.
Hypothesis refuses : refuses_all.
Hypothesis settles : copy_settles U.
Hypothesis apart : forall f g,
  In f (files self) -> In g (files self) ->
  home_of self f <> backup_of self g.

(** A turn with no copy due leaves the file system alone. *)
Lemma quiet_turn (f : string) (w : World) :
  copy_due self (fs w) f = false ->
  fs (snd (backup_file self f w)) = fs w
  /\ Forall (fun e => is_mutation e = false)
            (new_events w (snd (backup_file self f w))).
Proof.
  unfold copy_due. intros Hdue.
  backup_paths self f w;
    try (rewrite refuses in Hans; discriminate);
    try (cbn in Hdue; discriminate Hdue);
    (split; [reflexivity | repeat constructor]).
Qed.

(** A turn with a copy due performs it. *)
Lemma copying_turn (f : string) (w : World) :
  copy_due self (fs w) f = true ->
  exists fs', copy_effect (home_of self f) (backup_of self f) (fs w) = Ok fs'
              /\ fs (snd (backup_file self f w)) = fs'
              /\ exists_ (fs w) (backup_of self f) = false.
Proof.
  unfold copy_due. intros Hdue.
  apply andb_prop in Hdue as [Hdue Hfree].
  apply andb_prop in Hdue as [Hnodry Hw].
  apply negb_true_iff in Hfree, Hnodry.
  assert (Hhome : isfile (fs w) (home_of self f)
                  || isdir (fs w) (home_of self f) = true).
  { unfold backup_wanted in Hw. apply andb_prop in Hw. tauto. }
  destruct (copy_succeeds U settles (home_of self f) (backup_of self f)
              (fs w) Hhome) as [fs' Hfs'].
  exists fs'. split; [exact Hfs'|]. split; [|exact Hfree].
  rewrite backup_file_eq, Hw, Hnodry, Hfree. cbn zeta.
  unfold utils_copy; cbn [fs log]. rewrite Hfs'. reflexivity.
Qed.

(** Only a turn that meets something it cannot name raises, and it has
    changed nothing by then. *)
Lemma raising_turn (f : string) (w : World) (e : exn) :
  fst (backup_file self f w) = Raise e ->
  fs (snd (backup_file self f w)) = fs w.
Proof.
  destruct (copy_due self (fs w) f) eqn:Hdue.
  - destruct (copying_turn f w Hdue) as (fs' & Hfs' & _ & Hfree).
    unfold copy_due in Hdue.
    apply andb_prop in Hdue as [Hdue _].
    apply andb_prop in Hdue as [Hnodry Hw].
    apply negb_true_iff in Hnodry.
    rewrite backup_file_eq, Hw, Hnodry, Hfree. cbn zeta.
    unfold utils_copy; cbn [fs log]. rewrite Hfs'. discriminate.
  - intros _. apply quiet_turn. exact Hdue.
Qed.

(** With an operator who always refuses, what a turn does depends on the
    file system only. *)
Lemma turn_by_fs (f : string) (w w' : World) :
  fs w = fs w' ->
  fst (backup_file self f w) = fst (backup_file self f w').
Proof.
  intros Hfs. rewrite !backup_file_eq, <- Hfs.
  destruct (backup_wanted self (fs w) f);
    [|destruct (verbose self); reflexivity].
  destruct (dry_run self); [reflexivity|].
  destruct (exists_ (fs w) (backup_of self f)).
  - destruct (file_type (fs w) (backup_of self f)); [|reflexivity].
    cbn zeta. rewrite !refuses. reflexivity.
  - unfold utils_copy; cbn [fs log]. rewrite <- Hfs.
    destruct (copy_effect _ _ _); reflexivity.
Qed.

(** After its own turn a file has no copy due. *)
Lemma settled_after_turn (f : string) (w : World) :
  copy_due self (fs (snd (backup_file self f w))) f = false.
Proof.
  destruct (copy_due self (fs w) f) eqn:Hdue.
  - destruct (copying_turn f w Hdue) as (fs' & Hfs' & -> & _).
    unfold copy_due. rewrite (copy_creates U settles _ _ _ _ Hfs').
    apply andb_false_r.
  - rewrite (proj1 (quiet_turn f w Hdue)). exact Hdue.
Qed.

(** A turn on another file of the set does not make a copy due again. *)
Lemma settled_kept_by_turn (f g : string) (w : World) :
  In f (files self) -> In g (files self) ->
  copy_due self (fs w) f = false ->
  copy_due self (fs (snd (backup_file self g w))) f = false.
Proof.
  intros Hf Hg Hsettled.
  destruct (copy_due self (fs w) g) eqn:Hdue.
  - destruct (copying_turn g w Hdue) as (fs' & Hfs' & -> & Hfree).
    pose proof (copy_frame U settles _ _ _ _ (home_of self f) Hfs'
                  (apart f g Hf Hg)) as Hhome.
    destruct (same_entry _ _ _ Hhome) as (Hhf & Hhd & _).
    destruct (String.eqb_spec (backup_of self f) (backup_of self g)) as [Heq|Hne].
    + unfold copy_due. rewrite Heq, (copy_creates U settles _ _ _ _ Hfs').
      apply andb_false_r.
    + pose proof (copy_frame U settles _ _ _ _ (backup_of self f) Hfs' Hne)
        as Hback.
      destruct (same_entry _ _ _ Hback) as (Hbf & Hbd & Hbe).
      unfold copy_due, backup_wanted in *.
      rewrite Hhf, Hhd, Hbf, Hbd, Hbe. exact Hsettled.
  - rewrite (proj1 (quiet_turn g w Hdue)). exact Hsettled.
Qed.

Lemma settled_kept_by_loop (f : string) (xs : list string) (w : World) :
  In f (files self) -> (forall x, In x xs -> In x (files self)) ->
  copy_due self (fs w) f = false ->
  copy_due self (fs (snd (for_each (backup_file self) xs w))) f = false.
Proof.
  intros Hf. revert w. induction xs as [|x xs IH]; intros w Hxs Hsettled.
  - exact Hsettled.
  - cbn [for_each]. unfold bind.
    pose proof (settled_kept_by_turn f x w Hf (Hxs x (or_introl eq_refl))
                  Hsettled) as Hnext.
    destruct (backup_file self x w) as [[[]|e] w']; cbn [snd] in *.
    + apply IH; [intros y Hy; apply Hxs; right; exact Hy | exact Hnext].
    + exact Hnext.
Qed.

Lemma loop_extends (xs : list string) (w : World) :
  out (snd (for_each (backup_file self) xs w))
  = (out w ++ new_events w (snd (for_each (backup_file self) xs w)))%list.
Proof.
  unfold new_events. rewrite (loop_events _ (backup_file_extends self)) at 1 2.
  rewrite drop_app_length. reflexivity.
Qed.

(** The loop run again on the file system it left changes nothing. *)
Lemma second_loop_is_quiet (xs : list string) :
  (forall x, In x xs -> In x (files self)) ->
  forall w w2 : World,
    fs w2 = fs (snd (for_each (backup_file self) xs w)) ->
    fs (snd (for_each (backup_file self) xs w2)) = fs w2
    /\ Forall (fun e => is_mutation e = false)
              (new_events w2 (snd (for_each (backup_file self) xs w2))).
Proof.
  induction xs as [|x xs IH]; intros Hxs w w2 Hfs.
  - cbn. rewrite new_events_same. split; [reflexivity | constructor].
  - assert (Hx : In x (files self)) by (apply Hxs; left; reflexivity).
    assert (Hrest : forall y, In y xs -> In y (files self))
      by (intros y Hy; apply Hxs; right; exact Hy).
    assert (Hsettled : copy_due self (fs w2) x = false).
    { rewrite Hfs. cbn [for_each]. unfold bind.
      pose proof (settled_after_turn x w) as Hown.
      destruct (backup_file self x w) as [[[]|e] w'] eqn:Hturn; cbn [snd] in *.
      - apply settled_kept_by_loop; assumption.
      - exact Hown. }
    destruct (quiet_turn x w2 Hsettled) as [Hq1 Hq2].
    destruct (fst (backup_file self x w2)) as [[]|e2] eqn:Hres2.
    + (* the second run goes on after [x]: so did the first *)
      rewrite (for_each_next _ x xs w2 Hres2).
      destruct (fst (backup_file self x w)) as [[]|e1] eqn:Hres1.
      * rewrite (for_each_next _ x xs w Hres1) in Hfs.
        destruct (IH Hrest (snd (backup_file self x w))
                    (snd (backup_file self x w2))) as [IH1 IH2].
        { rewrite Hq1. exact Hfs. }
        split; [rewrite IH1; exact Hq1|].
        unfold new_events at 1.
        rewrite loop_extends, (backup_file_extends self x w2), <- app_assoc,
          drop_app_length.
        apply Forall_app. split; assumption.
      * exfalso.
        rewrite (for_each_raise _ x xs w e1 Hres1) in Hfs.
        rewrite (raising_turn x w e1 Hres1) in Hfs.
        rewrite (turn_by_fs x w2 w Hfs), Hres1 in Hres2. discriminate.
    + rewrite (for_each_raise _ x xs w2 e2 Hres2). split; assumption.
Qed.

End Idempotence.

(** The two runs behind the next lemma: home directory [/h], backup
    folder [/h/m], the files visited in the order ["m/x"], ["x"], and only
    [/h/x] on disk. *)
Example nested_first_run :
  new_events home_file_only
    (snd (backup (U := operator_no) nested_profile home_file_only))
  = [Printed "Backing up x ..."; Copied "/h/x" "/h/m/x"].
Proof. vm_compute. reflexivity. Qed.

Example nested_second_run :
  let w1 := snd (backup (U := operator_no) nested_profile home_file_only) in
  new_events w1 (snd (backup (U := operator_no) nested_profile w1))
  = [Printed "Backing up m/x ..."; Copied "/h/m/x" "/h/m/m/x"].
Proof. vm_compute. reflexivity. Qed.

(** C8, as stated, fails: with the backup folder [/h/m] inside the home
    directory [/h] and the file set [{"m/x", "x"}], the first run copies
    [/h/x] to [/h/m/x], which is the home path of ["m/x"]; the second run,
    every question refused, copies it on to [/h/m/m/x]. *)
Lemma second_backup_copies_a_backup :
  ~ backup_idempotent (U := operator_no) nested_profile home_file_only.
Proof.
  intros H.
  destruct (H (fun _ _ => eq_refl)) as [Hfs _].
  apply (f_equal (fun m : FS => m !! "/h/m/m/x")) in Hfs.
  vm_compute in Hfs. discriminate Hfs.
Qed.

(** C8, amended.  Let the operator refuse every question, let a copy of a
    file or a folder succeed, create its destination and change nothing
    else, and let no home path of a file of the set be the backup path of
    a file of the set.  Then a second [backup] run right after a first one
    leaves the file system as the first one left it and calls neither
    [utils.copy] nor [utils.delete]. *)
Theorem second_backup_changes_nothing {U : Utils} (self : ApplicationProfile)
    (w : World) :
  refuses_all ->
  copy_settles U ->
  (forall f g, In f (files self) -> In g (files self) ->
               home_of self f <> backup_of self g) ->
  second_backup_is_quiet self w.
Proof.
  intros refuses settles apart. unfold second_backup_is_quiet, backup.
  apply (second_loop_is_quiet self refuses settles apart (files self)
           (fun x H => H) w).
  reflexivity.
Qed.

Lemma second_backup_changes_nothing_witness :
  refuses_all (U := operator_no)
  /\ copy_settles operator_no
  /\ (forall f g, In f (files one_file) -> In g (files one_file) ->
                  home_of (U := operator_no) one_file f
                  <> backup_of (U := operator_no) one_file g)
  /\ second_backup_is_quiet (U := operator_no) one_file home_file_only.
Proof.
  assert (H1 : refuses_all (U := operator_no)) by (intros shown q; reflexivity).
  assert (H2 : copy_settles operator_no) by apply spec_copy_settles.
  assert (H3 : forall f g, In f (files one_file) -> In g (files one_file) ->
                 home_of (U := operator_no) one_file f
                 <> backup_of (U := operator_no) one_file g).
  { intros f g [<-|[]] [<-|[]]. vm_compute. discriminate. }
  refine (conj H1 (conj H2 (conj H3 _))).
  exact (@second_backup_changes_nothing operator_no one_file home_file_only
           H1 H2 H3).
Defined.

(** ** getFilepaths *)

Lemma append_assoc (a b c : string) : (a +:+ b) +:+ c = a +:+ (b +:+ c).
Proof.
  induction a as [|x a IH]; [reflexivity|].
  change (String x ((a +:+ b) +:+ c) = String x (a +:+ (b +:+ c))).
  rewrite IH. reflexivity.
Qed.

Lemma endswith_sep_slash (a : string) : endswith_sep (a +:+ "/") = true.
Proof.
  induction a as [|x a IH]; [reflexivity|].
  change (String x a +:+ "/") with (String x (a +:+ "/")).
  cbn [endswith_sep]. destruct (a +:+ "/") eqn:Ha; [|exact IH].
  destruct a; discriminate.
Qed.

Lemma is_empty_slash (a : string) : is_empty (a +:+ "/") = false.
Proof. destruct a; reflexivity. Qed.

(** The part of a joined path that comes before a relative component. *)
Lemma join_relative (a b : string) :
  startswith_sep b = false ->
  os_path_join a b
  = (if is_empty a || endswith_sep a then a else a +:+ "/") +:+ b.
Proof.
  intros Hb. unfold os_path_join. rewrite Hb.
  destruct (is_empty a || endswith_sep a); [reflexivity|].
  rewrite append_assoc. reflexivity.
Qed.

(** X1.  A trailing slash on the backup folder makes no difference: for a
    folder name that is not empty and does not already end with a slash,
    [getFilepaths] gives the same pair of paths whether or not a slash is
    appended to the folder. *)
Theorem trailing_slash_on_backup_folder {U : Utils} (folder : string)
    (fl : list string) (d v : bool) (filename : string) :
  is_empty folder = false ->
  endswith_sep folder = false ->
  getFilepaths (profile (folder +:+ "/") fl d v) filename
  = getFilepaths (profile folder fl d v) filename.
Proof.
  intros Hne Hsep. unfold getFilepaths, profile; cbn [mackup mackup_folder].
  f_equal. unfold os_path_join.
  destruct (startswith_sep filename); [reflexivity|].
  rewrite is_empty_slash, endswith_sep_slash, Hne, Hsep. cbn [orb].
  apply append_assoc.
Qed.

Lemma trailing_slash_on_backup_folder_witness :
  is_empty "/b" = false
  /\ endswith_sep "/b" = false
  /\ getFilepaths (U := operator_no) (profile "/b/" ["x"] false false) "x"
     = ("/h/x", "/b/x").
Proof.
  assert (H1 : is_empty "/b" = false) by reflexivity.
  assert (H2 : endswith_sep "/b" = false) by reflexivity.
  refine (conj H1 (conj H2 _)).
  exact (@trailing_slash_on_backup_folder operator_no "/b" ["x"] false false
           "x" H1 H2).
Defined.

(** X2.  Two different relative file names never share a home path, nor a
    backup path. *)
Theorem relative_names_have_their_own_paths {U : Utils}
    (self : ApplicationProfile) (f g : string) :
  startswith_sep f = false ->
  startswith_sep g = false ->
  f <> g ->
  home_of self f <> home_of self g
  /\ backup_of self f <> backup_of self g.
Proof.
  intros Hf Hg Hne. unfold home_of, backup_of, getFilepaths; cbn [fst snd].
  rewrite !join_relative by assumption.
  split; intros Heq; apply Hne; eapply String.app_inj; exact Heq.
Qed.

Lemma relative_names_have_their_own_paths_witness :
  startswith_sep "x" = false
  /\ startswith_sep "y" = false
  /\ "x" <> "y"
  /\ home_of (U := operator_no) two_files "x"
     <> home_of (U := operator_no) two_files "y"
  /\ backup_of (U := operator_no) two_files "x"
     <> backup_of (U := operator_no) two_files "y".
Proof.
  assert (H1 : startswith_sep "x" = false) by reflexivity.
  assert (H2 : startswith_sep "y" = false) by reflexivity.
  assert (H3 : "x" <> "y") by discriminate.
  refine (conj H1 (conj H2 (conj H3 _))).
  exact (@relative_names_have_their_own_paths operator_no two_files "x" "y"
           H1 H2 H3).
Defined.

(** A turn of [backup] on a file whose two paths are one and the same. *)
Lemma same_path_turn {U : Utils} (self : ApplicationProfile) (f : string)
    (w : World) :
  home_of self f = backup_of self f ->
  backup_wanted self (fs w) f = false.
Proof.
  intros Heq. unfold backup_wanted. rewrite Heq.
  destruct (isfile _ _ || isdir _ _); reflexivity.
Qed.

(** X3.  An absolute file name is never backed up.  [os.path.join] drops
    the root in front of it, so its home path and its backup path are the
    name itself, and a turn of [backup] on it ends normally, leaves the
    file system as it was, and calls neither [utils.confirm] nor
    [utils.copy] nor [utils.delete], also outside a dry run. *)
Theorem absolute_name_is_never_backed_up {U : Utils}
    (self : ApplicationProfile) (f : string) (w : World) :
  startswith_sep f = true ->
  getFilepaths self f = (f, f)
  /\ fst (backup_file self f w) = Ok tt
  /\ fs (snd (backup_file self f w)) = fs w
  /\ Forall (fun e => is_print e = true)
            (new_events w (snd (backup_file self f w))).
Proof.
  intros Habs.
  assert (Hpaths : getFilepaths self f = (f, f)).
  { unfold getFilepaths, os_path_join. rewrite Habs. reflexivity. }
  split; [exact Hpaths|].
  assert (Hw : backup_wanted self (fs w) f = false).
  { apply same_path_turn. unfold home_of, backup_of. rewrite Hpaths.
    reflexivity. }
  rewrite backup_file_eq, Hw.
  destruct (verbose self); events; repeat split; repeat constructor.
Qed.

Lemma absolute_name_is_never_backed_up_witness :
  startswith_sep "/etc/x" = true
  /\ getFilepaths (U := operator_yes) one_file "/etc/x" = ("/etc/x", "/etc/x")
  /\ fs (snd (backup_file (U := operator_yes) one_file "/etc/x"
                (world [("/etc/x", Plain RegularFile)])))
     = fs (world [("/etc/x", Plain RegularFile)]).
Proof.
  assert (H1 : startswith_sep "/etc/x" = true) by reflexivity.
  destruct (@absolute_name_is_never_backed_up operator_yes one_file "/etc/x"
              (world [("/etc/x", Plain RegularFile)]) H1) as (G1 & _ & G3 & _).
  exact (conj H1 (conj G1 G3)).
Defined.

(** ** Turns that do nothing *)

Lemma absent_not_link (fs : FS) (p : string) :
  fs !! p = None -> islink fs p = false.
Proof. intros H. unfold islink. rewrite H. reflexivity. Qed.

(** X4.  When neither the home path nor the backup path of a file holds
    anything, a turn of either loop ends normally and changes nothing; when
    verbose it prints the "does not exist" text, naming the home path in
    [backup] and the backup path in [restore], and otherwise it prints
    nothing. *)
Theorem nothing_on_either_side {U : Utils} (self : ApplicationProfile)
    (f : string) (w : World) :
  fs w !! home_of self f = None ->
  fs w !! backup_of self f = None ->
  backup_file self f w
  = (Ok tt, if verbose self
            then log (Printed (does_not_exist (home_of self f))) w else w)
  /\ restore_file self f w
     = (Ok tt, if verbose self
               then log (Printed (does_not_exist (backup_of self f))) w else w).
Proof.
  intros Hh Hb.
  destruct (absent_not_seen _ _ Hh) as (Hhf & Hhd & Hhe).
  destruct (absent_not_seen _ _ Hb) as (Hbf & Hbd & Hbe).
  pose proof (absent_not_link _ _ Hh) as Hhl.
  split.
  - rewrite backup_file_eq. unfold backup_wanted, backup_diagnostic.
    rewrite Hhf, Hhd, Hhe, Hhl. cbn [orb andb].
    destruct (verbose self); reflexivity.
  - rewrite restore_file_eq. unfold restore_wanted, restore_diagnostic.
    rewrite Hbf, Hbd, Hhe, Hhl. cbn [orb andb].
    destruct (verbose self); reflexivity.
Qed.

Lemma nothing_on_either_side_witness :
  fs nothing_there !! "/h/x" = None
  /\ fs nothing_there !! "/b/x" = None
  /\ backup_file (U := operator_yes) one_file_verbose "x" nothing_there
     = (Ok tt, log (Printed (does_not_exist "/h/x")) nothing_there)
  /\ restore_file (U := operator_yes) one_file_verbose "x" nothing_there
     = (Ok tt, log (Printed (does_not_exist "/b/x")) nothing_there).
Proof.
  assert (H1 : fs nothing_there !! "/h/x" = None) by (vm_compute; reflexivity).
  assert (H2 : fs nothing_there !! "/b/x" = None) by (vm_compute; reflexivity).
  refine (conj H1 (conj H2 _)).
  exact (@nothing_on_either_side operator_yes one_file_verbose "x"
           nothing_there H1 H2).
Defined.

Lemma not_needed_not_wanted {U : Utils} (self : ApplicationProfile) (fs : FS)
    (f : string) :
  backup_not_needed self fs f -> backup_wanted self fs f = false.
Proof.
  unfold backup_not_needed, backup_wanted. intros [H|H]; rewrite H;
    [reflexivity | apply andb_false_r].
Qed.

Lemma not_possible_not_wanted {U : Utils} (self : ApplicationProfile) (fs : FS)
    (f : string) :
  restore_not_possible self fs f -> restore_wanted self fs f = false.
Proof.
  unfold restore_not_possible, restore_wanted. intros [H|H]; rewrite H;
    [reflexivity | apply andb_false_r].
Qed.

Lemma idle_backup_loop {U : Utils} (self : ApplicationProfile)
    (xs : list string) (w : World) :
  (forall f, In f xs -> backup_not_needed self (fs w) f) ->
  for_each (backup_file self) xs w
  = (Ok tt, {| fs := fs w;
               out := (out w ++ map Printed
                         (flat_map (backup_line self (fs w)) xs))%list |}).
Proof.
  revert w. induction xs as [|x xs IH]; intros w Hall; cbn [for_each flat_map].
  - unfold ret. cbn. rewrite app_nil_r. destruct w; reflexivity.
  - assert (Hx : backup_wanted self (fs w) x = false)
      by (apply not_needed_not_wanted, Hall; left; reflexivity).
    assert (Hturn : backup_file self x w
              = (Ok tt, {| fs := fs w;
                           out := (out w ++ map Printed
                                     (backup_line self (fs w) x))%list |})).
    { rewrite backup_file_eq. unfold backup_line. rewrite Hx.
      destruct (verbose self); [reflexivity|].
      cbn [map]. rewrite app_nil_r. destruct w; reflexivity. }
    unfold bind. rewrite Hturn, IH.
    + cbn [fs out]. rewrite map_app, app_assoc. reflexivity.
    + intros f Hf. apply Hall. right. exact Hf.
Qed.

Lemma idle_restore_loop {U : Utils} (self : ApplicationProfile)
    (xs : list string) (w : World) :
  (forall f, In f xs -> restore_not_possible self (fs w) f) ->
  for_each (restore_file self) xs w
  = (Ok tt, {| fs := fs w;
               out := (out w ++ map Printed
                         (flat_map (restore_line self (fs w)) xs))%list |}).
Proof.
  revert w. induction xs as [|x xs IH]; intros w Hall; cbn [for_each flat_map].
  - unfold ret. cbn. rewrite app_nil_r. destruct w; reflexivity.
  - assert (Hx : restore_wanted self (fs w) x = false)
      by (apply not_possible_not_wanted, Hall; left; reflexivity).
    assert (Hturn : restore_file self x w
              = (Ok tt, {| fs := fs w;
                           out := (out w ++ map Printed
                                     (restore_line self (fs w) x))%list |})).
    { rewrite restore_file_eq. unfold restore_line. rewrite Hx.
      destruct (verbose self); [reflexivity|].
      cbn [map]. rewrite app_nil_r. destruct w; reflexivity. }
    unfold bind. rewrite Hturn, IH.
    + cbn [fs out]. rewrite map_app, app_assoc. reflexivity.
    + intros f Hf. apply Hall. right. exact Hf.
Qed.

(** X5.  [backup] never refreshes a backup.  If every listed file either
    has no file or folder at home or already has a file or folder at its
    backup path, a run of [backup], dry or not and whatever the operator
    would answer, ends normally, leaves the file system as it was, and
    only prints: what it prints is what a dry run prints. *)
Theorem backup_keeps_existing_backups {U : Utils} (self : ApplicationProfile)
    (w : World) :
  (forall f, In f (files self) -> backup_not_needed self (fs w) f) ->
  backup self w
  = (Ok tt, {| fs := fs w;
               out := (out w ++ map Printed
                         (flat_map (backup_line self (fs w)) (files self)))%list |})
  /\ Forall (fun e => is_print e = true) (new_events w (snd (backup self w))).
Proof.
  intros Hall. unfold backup. rewrite (idle_backup_loop self _ w Hall).
  split; [reflexivity|]. cbn [snd]. rewrite new_events_app.
  apply List.Forall_forall. intros e He.
  apply in_map_iff in He as (t & <- & _). reflexivity.
Qed.

Lemma backup_keeps_existing_backups_witness :
  (forall f, In f (files one_file) ->
             backup_not_needed (U := operator_yes) one_file
               (fs file_on_both_sides) f)
  /\ backup (U := operator_yes) one_file file_on_both_sides
     = (Ok tt, file_on_both_sides).
Proof.
  assert (H : forall f, In f (files one_file) ->
                backup_not_needed (U := operator_yes) one_file
                  (fs file_on_both_sides) f).
  { intros f [<-|[]]. right. vm_compute. reflexivity. }
  refine (conj H _).
  exact (proj1 (@backup_keeps_existing_backups operator_yes one_file
                  file_on_both_sides H)).
Defined.

(** X6.  [restore] does nothing for what is not backed up or not meant for
    this platform.  If every listed file either has no file or folder at
    its backup path or is vetoed by
    [can_file_be_synced_on_current_platform], a run of [restore], dry or
    not, ends normally, leaves the file system as it was, and only
    prints. *)
Theorem restore_skips_what_is_not_backed_up {U : Utils}
    (self : ApplicationProfile) (w : World) :
  (forall f, In f (files self) -> restore_not_possible self (fs w) f) ->
  restore self w
  = (Ok tt, {| fs := fs w;
               out := (out w ++ map Printed
                         (flat_map (restore_line self (fs w)) (files self)))%list |})
  /\ Forall (fun e => is_print e = true) (new_events w (snd (restore self w))).
Proof.
  intros Hall. unfold restore. rewrite (idle_restore_loop self _ w Hall).
  split; [reflexivity|]. cbn [snd]. rewrite new_events_app.
  apply List.Forall_forall. intros e He.
  apply in_map_iff in He as (t & <- & _). reflexivity.
Qed.

Lemma restore_skips_what_is_not_backed_up_witness :
  (forall f, In f (files one_file) ->
             restore_not_possible (U := foreign_platform) one_file
               (fs file_on_both_sides) f)
  /\ restore (U := foreign_platform) one_file file_on_both_sides
     = (Ok tt, file_on_both_sides).
Proof.
  assert (H : forall f, In f (files one_file) ->
                restore_not_possible (U := foreign_platform) one_file
                  (fs file_on_both_sides) f).
  { intros f _. right. reflexivity. }
  refine (conj H _).
  exact (proj1 (@restore_skips_what_is_not_backed_up foreign_platform one_file
                  file_on_both_sides H)).
Defined.

(** ** What the loops call *)

Section LoopCalls.
Variable body : string -> M unit.
Hypothesis body_extends : forall x w,
  out (snd (body x w)) = (out w ++ new_events w (snd (body x w)))%list.

Lemma for_each_extends (xs : list string) (w : World) :
  out (snd (for_each body xs w))
  = (out w ++ new_events w (snd (for_each body xs w)))%list.
Proof.
  unfold new_events. rewrite (loop_events body body_extends) at 1 2.
  rewrite drop_app_length. reflexivity.
Qed.

Lemma new_events_next (x : string) (xs : list string) (w : World) :
  fst (body x w) = Ok tt ->
  new_events w (snd (for_each body (x :: xs) w))
  = (new_events w (snd (body x w))
     ++ new_events (snd (body x w)) (snd (for_each body xs (snd (body x w)))))%list.
Proof.
  intros Hok. rewrite (for_each_next body x xs w Hok).
  unfold new_events at 1.
  rewrite for_each_extends, (body_extends x w), <- app_assoc, drop_app_length.
  reflexivity.
Qed.

Lemma loop_Forall_in (P : event -> Prop) (xs : list string) :
  (forall x w, In x xs -> Forall P (new_events w (snd (body x w)))) ->
  forall w, Forall P (new_events w (snd (for_each body xs w))).
Proof.
  induction xs as [|x xs IH]; intros HP w.
  - cbn. rewrite new_events_same. constructor.
  - destruct (fst (body x w)) as [[]|e] eqn:Hres.
    + rewrite (new_events_next x xs w Hres). apply Forall_app. split.
      * apply HP. left. reflexivity.
      * apply IH. intros y w' Hy. apply HP. right. exact Hy.
    + rewrite (for_each_raise body x xs w e Hres). apply HP. left. reflexivity.
Qed.

End LoopCalls.

(** X7.  In a run of [backup], whatever the operator answers, every
    [utils.copy] goes from the home path of a listed file to the backup
    path of that file, and every [utils.delete] is aimed at the backup path
    of a listed file: no call is aimed at any other path. *)
Theorem backup_writes_backup_paths_only {U : Utils} (self : ApplicationProfile)
    (w : World) :
  Forall (backup_call self) (new_events w (snd (backup self w))).
Proof.
  unfold backup.
  apply (loop_Forall_in _ (backup_file_extends self)).
  intros x w' Hx.
  backup_paths self x w'; repeat constructor; cbn; eauto.
Qed.

(** X8.  In a run of [restore], whatever the operator answers, every
    [utils.copy] goes from the backup path of a listed file that the
    platform allows to the home path of that file, and nothing is
    deleted: the backup is only read. *)
Theorem restore_writes_home_paths_only {U : Utils} (self : ApplicationProfile)
    (w : World) :
  Forall (restore_call self) (new_events w (snd (restore self w))).
Proof.
  unfold restore.
  apply (loop_Forall_in _ (restore_file_extends self)).
  intros x w' Hx.
  restore_paths self x w'; repeat constructor; cbn;
    apply andb_prop in Hwant as [_ Hsup]; eauto.
Qed.

(** ** Restore asks before it replaces *)

(** X9.  A turn of [restore] copies onto a home path that
    [os.path.exists] reports only after a question answered yes, and when
    no question is answered yes in such a turn the file system stays as it
    was and nothing is copied.  A broken symbolic link at the home path is
    not reported: in a non-dry-run, with the file selected for restoring,
    the turn prints the status line and copies onto it without asking. *)
Theorem restore_replaces_home_entry_only_after_yes {U : Utils}
    (self : ApplicationProfile) (f : string) (w : World) :
  (exists_ (fs w) (home_of self f) = true ->
   confirmed_before (home_of self f)
     (new_events w (snd (restore_file self f w)))
   /\ ((forall q, ~ In (Asked q true)
                       (new_events w (snd (restore_file self f w)))) ->
       fs (snd (restore_file self f w)) = fs w
       /\ Forall (fun e => is_mutation e = false)
                 (new_events w (snd (restore_file self f w)))))
  /\ (dry_run self = false ->
      restore_wanted self (fs w) f = true ->
      fs w !! home_of self f = Some (Symlink None) ->
      new_events w (snd (restore_file self f w))
      = [Printed (restore_status self f);
         Copied (backup_of self f) (home_of self f)]).
Proof.
  split.
  - intros Hseen. split.
    + apply gated_confirmed.
      restore_paths self f w; try congruence; cbn [gated orb andb];
        rewrite ?String.eqb_refl; reflexivity.
    + restore_paths self f w; try congruence; intros Hno;
        try (split; [reflexivity | repeat constructor]; fail);
        exfalso; eapply (Hno _); cbn; eauto.
  - intros Hnodry Hw Hbroken.
    destruct (broken_link_not_seen _ _ Hbroken) as (_ & _ & Hhe).
    restore_paths self f w; congruence.
Qed.

Lemma restore_replaces_home_entry_only_after_yes_witness :
  exists_ (fs file_on_both_sides) "/h/x" = true
  /\ (forall q, ~ In (Asked q true)
         (new_events file_on_both_sides
            (snd (restore_file (U := operator_no) one_file "x"
                    file_on_both_sides))))
  /\ fs (snd (restore_file (U := operator_no) one_file "x" file_on_both_sides))
     = fs file_on_both_sides
  /\ dry_run one_file = false
  /\ restore_wanted (U := operator_no) one_file (fs broken_link_at_home) "x"
     = true
  /\ fs broken_link_at_home !! "/h/x" = Some (Symlink None)
  /\ new_events broken_link_at_home
       (snd (restore_file (U := operator_no) one_file "x" broken_link_at_home))
     = [Printed "Restoring x ..."; Copied "/b/x" "/h/x"].
Proof.
  assert (H1 : exists_ (fs file_on_both_sides) "/h/x" = true)
    by (vm_compute; reflexivity).
  assert (H2 : forall q, ~ In (Asked q true)
            (new_events file_on_both_sides
               (snd (restore_file (U := operator_no) one_file "x"
                       file_on_both_sides)))).
  { intros q Hin. vm_compute in Hin.
    destruct Hin as [Hin|[Hin|[]]]; discriminate Hin. }
  assert (H3 : dry_run one_file = false) by reflexivity.
  assert (H4 : restore_wanted (U := operator_no) one_file
                 (fs broken_link_at_home) "x" = true)
    by (vm_compute; reflexivity).
  assert (H5 : fs broken_link_at_home !! "/h/x" = Some (Symlink None))
    by (vm_compute; reflexivity).
  refine (conj H1 (conj H2 (conj _ (conj H3 (conj H4 (conj H5 _)))))).
  - exact (proj1 (proj2 (proj1 (@restore_replaces_home_entry_only_after_yes
                                  operator_no one_file "x" file_on_both_sides)
                           H1) H2)).
  - exact (proj2 (@restore_replaces_home_entry_only_after_yes operator_no
                    one_file "x" broken_link_at_home) H3 H4 H5).
Defined.

(** ** Failures of the collaborators *)

(** X10.  A failing copy ends the run.  In a non-dry-run [backup], after
    any files handled normally, when a file has a file or folder at home
    and nothing at its backup path and [utils.copy] raises, the run ends
    with that exception right after the call; the file system is as it was
    before the turn and the remaining files are not looked at. *)
Theorem copy_failure_ends_backup {U : Utils} (self : ApplicationProfile)
    (earlier : list string) (f : string) (rest : list string)
    (w0 w : World) (e : exn) :
  dry_run self = false ->
  for_each (backup_file self) earlier w0 = (Ok tt, w) ->
  isfile (fs w) (home_of self f) || isdir (fs w) (home_of self f) = true ->
  fs w !! backup_of self f = None ->
  copy_effect (home_of self f) (backup_of self f) (fs w) = Raise e ->
  for_each (backup_file self) (earlier ++ f :: rest)%list w0
  = (Raise e,
     {| fs := fs w;
        out := (out w ++ [Printed (backup_status self f);
                          Copied (home_of self f) (backup_of self f)])%list |}).
Proof.
  intros Hnodry Hearlier Hhome Habsent Hfail.
  destruct (absent_not_seen _ _ Habsent) as (Hbf & Hbd & Hbe).
  assert (Hw : backup_wanted self (fs w) f = true).
  { unfold backup_wanted. rewrite Hhome, Hbf, Hbd. reflexivity. }
  assert (Hturn : backup_file self f w
            = (Raise e,
               {| fs := fs w;
                  out := (out w ++ [Printed (backup_status self f);
                            Copied (home_of self f) (backup_of self f)])%list |})).
  { rewrite backup_file_eq, Hw, Hnodry, Hbe. cbn zeta.
    unfold utils_copy, log; cbn [fs out]. rewrite Hfail, <- app_assoc.
    reflexivity. }
  rewrite for_each_app, Hearlier.
  rewrite (for_each_raise _ f rest w e); rewrite Hturn; reflexivity.
Qed.

Lemma copy_failure_ends_backup_witness :
  dry_run two_files = false
  /\ isfile (fs home_file_only) "/h/x" || isdir (fs home_file_only) "/h/x" = true
  /\ fs home_file_only !! "/b/x" = None
  /\ backup (U := full_disk) two_files home_file_only
     = (Raise (OSError "No space left: /b/x"),
        {| fs := fs home_file_only;
           out := [Printed "Backing up x ..."; Copied "/h/x" "/b/x"] |}).
Proof.
  assert (H1 : dry_run two_files = false) by reflexivity.
  assert (H2 : isfile (fs home_file_only) "/h/x"
               || isdir (fs home_file_only) "/h/x" = true)
    by (vm_compute; reflexivity).
  assert (H3 : fs home_file_only !! "/b/x" = None) by (vm_compute; reflexivity).
  refine (conj H1 (conj H2 (conj H3 _))).
  exact (@copy_failure_ends_backup full_disk two_files [] "x" ["y"]
           home_file_only home_file_only (OSError "No space left: /b/x")
           H1 eq_refl H2 H3 eq_refl).
Defined.

(** X11.  Replacing a backup is a delete followed by a copy, with no way
    back.  In a turn of [backup] that got a yes: if [utils.delete] raises,
    the turn raises and [utils.copy] is not called; if the delete goes
    through, the copy runs on the file system the delete left, and when
    that copy raises the turn raises with the old backup entry already
    gone; otherwise the turn ends normally on what the copy made. *)
Theorem replacement_is_delete_then_copy {U : Utils} (self : ApplicationProfile)
    (f : string) (w : World) (ty : string) :
  dry_run self = false ->
  backup_wanted self (fs w) f = true ->
  exists_ (fs w) (backup_of self f) = true ->
  file_type (fs w) (backup_of self f) = Some ty ->
  confirm_answer (out w ++ [Printed (backup_status self f)])%list
    (backup_question ty (backup_of self f)) = true ->
  backup_file self f w
  = match delete_effect (backup_of self f) (fs w) with
    | Raise e =>
        (Raise e,
         {| fs := fs w;
            out := (out w ++ [Printed (backup_status self f);
                      Asked (backup_question ty (backup_of self f)) true;
                      Deleted (backup_of self f)])%list |})
    | Ok fs1 =>
        match copy_effect (home_of self f) (backup_of self f) fs1 with
        | Raise e =>
            (Raise e,
             {| fs := fs1;
                out := (out w ++ [Printed (backup_status self f);
                          Asked (backup_question ty (backup_of self f)) true;
                          Deleted (backup_of self f);
                          Copied (home_of self f) (backup_of self f)])%list |})
        | Ok fs2 =>
            (Ok tt,
             {| fs := fs2;
                out := (out w ++ [Printed (backup_status self f);
                          Asked (backup_question ty (backup_of self f)) true;
                          Deleted (backup_of self f);
                          Copied (home_of self f) (backup_of self f)])%list |})
        end
    end.
Proof.
  intros Hnodry Hw Hseen Hnamed Hyes.
  rewrite backup_file_eq, Hw, Hnodry, Hseen, Hnamed. cbn zeta.
  unfold log; cbn [fs out]. rewrite Hyes.
  unfold bind, utils_delete, utils_copy, log; cbn [fs out].
  destruct (delete_effect _ _) as [fs1|e1]; cbn [fs out].
  - destruct (copy_effect _ _ _); rewrite <- !app_assoc; reflexivity.
  - rewrite <- !app_assoc. reflexivity.
Qed.

Lemma replacement_is_delete_then_copy_witness :
  dry_run one_file = false
  /\ backup_wanted (U := full_disk) one_file (fs link_in_backup) "x" = true
  /\ exists_ (fs link_in_backup) "/b/x" = true
  /\ file_type (fs link_in_backup) "/b/x" = Some "link"
  /\ backup_file (U := full_disk) one_file "x" link_in_backup
     = (Raise (OSError "No space left: /b/x"),
        {| fs := delete "/b/x" (fs link_in_backup);
           out := [Printed "Backing up x ...";
                   Asked (backup_question "link" "/b/x") true;
                   Deleted "/b/x"; Copied "/h/x" "/b/x"] |})
  /\ backup_file (U := read_only_backup) one_file "x" link_in_backup
     = (Raise (OSError "Permission denied: /b/x"),
        {| fs := fs link_in_backup;
           out := [Printed "Backing up x ...";
                   Asked (backup_question "link" "/b/x") true;
                   Deleted "/b/x"] |}).
Proof.
  assert (H1 : dry_run one_file = false) by reflexivity.
  assert (H2 : backup_wanted (U := full_disk) one_file (fs link_in_backup) "x"
               = true) by (vm_compute; reflexivity).
  assert (H3 : exists_ (fs link_in_backup) "/b/x" = true)
    by (vm_compute; reflexivity).
  assert (H4 : file_type (fs link_in_backup) "/b/x" = Some "link")
    by (vm_compute; reflexivity).
  refine (conj H1 (conj H2 (conj H3 (conj H4 (conj _ _))))).
  - exact (@replacement_is_delete_then_copy full_disk one_file "x"
             link_in_backup "link" H1 H2 H3 H4 eq_refl).
  - exact (@replacement_is_delete_then_copy read_only_backup one_file "x"
             link_in_backup "link" H1 H2 H3 H4 eq_refl).
Defined.

(** ** Verbosity *)

Lemma silent_app (evs evs' : list event) :
  silent (evs ++ evs')%list = (silent evs ++ silent evs')%list.
Proof. apply List.filter_app. Qed.

(** Two loop bodies that agree, turn by turn, on everything but prints. *)
Section AlikeLoops.
Variables body body' : string -> M unit.
Hypothesis body_extends : forall x w,
  out (snd (body x w)) = (out w ++ new_events w (snd (body x w)))%list.
Hypothesis body'_extends : forall x w,
  out (snd (body' x w)) = (out w ++ new_events w (snd (body' x w)))%list.
Hypothesis alike : forall x w w',
  fs w = fs w' ->
  fst (body x w) = fst (body' x w')
  /\ fs (snd (body x w)) = fs (snd (body' x w'))
  /\ silent (new_events w (snd (body x w)))
     = silent (new_events w' (snd (body' x w'))).

Lemma alike_loops (xs : list string) :
  forall w w', fs w = fs w' ->
  fst (for_each body xs w) = fst (for_each body' xs w')
  /\ fs (snd (for_each body xs w)) = fs (snd (for_each body' xs w'))
  /\ silent (new_events w (snd (for_each body xs w)))
     = silent (new_events w' (snd (for_each body' xs w'))).
Proof.
  induction xs as [|x xs IH]; intros w w' Hfs.
  - cbn. rewrite !new_events_same. auto.
  - destruct (alike x w w' Hfs) as (Hres & Hfs1 & Hsil).
    destruct (fst (body x w)) as [[]|e] eqn:Hb.
    + symmetry in Hres.
      rewrite (new_events_next body body_extends x xs w Hb),
        (new_events_next body' body'_extends x xs w' Hres), !silent_app.
      rewrite (for_each_next body x xs w Hb),
        (for_each_next body' x xs w' Hres).
      destruct (IH _ _ Hfs1) as (IH1 & IH2 & IH3).
      rewrite Hsil, IH3. auto.
    + symmetry in Hres.
      rewrite (for_each_raise body x xs w e Hb),
        (for_each_raise body' x xs w' e Hres), Hb, Hres. auto.
Qed.

End AlikeLoops.

Lemma backup_turn_whatever_verbosity {U : Utils} (self : ApplicationProfile)
    (v : bool) (f : string) (w w' : World) :
  answers_by_question -> fs w = fs w' ->
  fst (backup_file self f w) = fst (backup_file (with_verbose v self) f w')
  /\ fs (snd (backup_file self f w))
     = fs (snd (backup_file (with_verbose v self) f w'))
  /\ silent (new_events w (snd (backup_file self f w)))
     = silent (new_events w' (snd (backup_file (with_verbose v self) f w'))).
Proof.
  intros Hq Hfs.
  rewrite (backup_file_eq self f w), (backup_file_eq (with_verbose v self) f w').
  change (backup_wanted (with_verbose v self)) with (backup_wanted self).
  change (backup_of (with_verbose v self)) with (backup_of self).
  change (home_of (with_verbose v self)) with (home_of self).
  change (dry_run (with_verbose v self)) with (dry_run self).
  change (verbose (with_verbose v self)) with v.
  rewrite <- Hfs.
  destruct (backup_wanted self (fs w) f).
  - destruct (dry_run self); [events; auto|].
    destruct (exists_ (fs w) (backup_of self f)).
    + destruct (file_type (fs w) (backup_of self f)) as [ty|]; [|events; auto].
      cbn zeta.
      rewrite (Hq (out (log (Printed (backup_status self f)) w)) []),
        (Hq (out (log (Printed (backup_status (with_verbose v self) f)) w')) []).
      destruct (confirm_answer [] _); [|events; auto].
      unfold bind, utils_delete, utils_copy; cbn [fs out log]. rewrite <- Hfs.
      destruct (delete_effect _ _); [destruct (copy_effect _ _ _)|];
        events; auto.
    + unfold utils_copy; cbn [fs out log]. rewrite <- Hfs.
      destruct (copy_effect _ _ _); events; auto.
  - destruct (verbose self), v; events; auto.
Qed.

Lemma restore_turn_whatever_verbosity {U : Utils} (self : ApplicationProfile)
    (v : bool) (f : string) (w w' : World) :
  answers_by_question -> fs w = fs w' ->
  fst (restore_file self f w) = fst (restore_file (with_verbose v self) f w')
  /\ fs (snd (restore_file self f w))
     = fs (snd (restore_file (with_verbose v self) f w'))
  /\ silent (new_events w (snd (restore_file self f w)))
     = silent (new_events w' (snd (restore_file (with_verbose v self) f w'))).
Proof.
  intros Hq Hfs.
  rewrite (restore_file_eq self f w), (restore_file_eq (with_verbose v self) f w').
  change (restore_wanted (with_verbose v self)) with (restore_wanted self).
  change (backup_of (with_verbose v self)) with (backup_of self).
  change (home_of (with_verbose v self)) with (home_of self).
  change (dry_run (with_verbose v self)) with (dry_run self).
  change (verbose (with_verbose v self)) with v.
  rewrite <- Hfs.
  destruct (restore_wanted self (fs w) f).
  - destruct (dry_run self); [events; auto|].
    destruct (exists_ (fs w) (home_of self f)).
    + destruct (file_type (fs w) (home_of self f)) as [ty|]; [|events; auto].
      cbn zeta.
      rewrite (Hq (out (log (Printed (restore_status self f)) w)) []),
        (Hq (out (log (Printed (restore_status (with_verbose v self) f)) w')) []).
      destruct (confirm_answer [] _); [|events; auto].
      unfold utils_copy; cbn [fs out log]. rewrite <- Hfs.
      destruct (copy_effect _ _ _); events; auto.
    + unfold utils_copy; cbn [fs out log]. rewrite <- Hfs.
      destruct (copy_effect _ _ _); events; auto.
  - destruct (verbose self), v; events; auto.
Qed.

(** X12.  Verbosity changes what is printed and nothing else.  With an
    operator whose answers depend on the question only, a run of [backup]
    or of [restore] with another verbosity, from the same world, ends the
    same way (normally, or with the same exception), leaves the same file
    system, and makes the same questions, deletes and copies in the same
    order. *)
Theorem verbosity_changes_prints_only {U : Utils} (self : ApplicationProfile)
    (v : bool) (w : World) :
  answers_by_question ->
  (fst (backup self w) = fst (backup (with_verbose v self) w)
   /\ fs (snd (backup self w)) = fs (snd (backup (with_verbose v self) w))
   /\ silent (new_events w (snd (backup self w)))
      = silent (new_events w (snd (backup (with_verbose v self) w))))
  /\ (fst (restore self w) = fst (restore (with_verbose v self) w)
      /\ fs (snd (restore self w)) = fs (snd (restore (with_verbose v self) w))
      /\ silent (new_events w (snd (restore self w)))
         = silent (new_events w (snd (restore (with_verbose v self) w)))).
Proof.
  intros Hq. unfold backup, restore.
  change (files (with_verbose v self)) with (files self).
  split.
  - apply (alike_loops _ _ (backup_file_extends self)
             (backup_file_extends (with_verbose v self))); [|reflexivity].
    intros x w1 w2. apply backup_turn_whatever_verbosity. exact Hq.
  - apply (alike_loops _ _ (restore_file_extends self)
             (restore_file_extends (with_verbose v self))); [|reflexivity].
    intros x w1 w2. apply restore_turn_whatever_verbosity. exact Hq.
Qed.

Lemma verbosity_changes_prints_only_witness :
  answers_by_question (U := operator_yes)
  /\ fs (snd (backup (U := operator_yes) one_file link_in_backup))
     = fs (snd (backup (U := operator_yes) (with_verbose true one_file)
                  link_in_backup))
  /\ silent (new_events link_in_backup
               (snd (backup (U := operator_yes) (with_verbose true one_file)
                       link_in_backup)))
     = [Asked (backup_question "link" "/b/x") true;
        Deleted "/b/x"; Copied "/h/x" "/b/x"].
Proof.
  assert (H : answers_by_question (U := operator_yes))
    by (intros shown shown' q; reflexivity).
  destruct (proj1 (@verbosity_changes_prints_only operator_yes one_file true
                     link_in_backup H)) as (_ & G2 & G3).
  refine (conj H (conj G2 _)).
  rewrite <- G3. vm_compute. reflexivity.
Defined.

(** ** Refusing every question *)

(** X13.  With an operator who refuses every question, a run of [backup]
    never calls [utils.delete], whatever the file list and the file
    system. *)
Theorem refused_backup_never_deletes {U : Utils} (self : ApplicationProfile)
    (w : World) :
  refuses_all ->
  Forall (fun e => is_delete e = false) (new_events w (snd (backup self w))).
Proof.
  intros Hno. unfold backup.
  apply (loop_Forall _ (backup_file_extends self)).
  intros x w'.
  backup_paths self x w'; try (rewrite Hno in Hans; discriminate);
    repeat constructor.
Qed.

Lemma refused_backup_never_deletes_witness :
  refuses_all (U := operator_no)
  /\ Forall (fun e => is_delete e = false)
       (new_events link_in_backup
          (snd (backup (U := operator_no) one_file link_in_backup))).
Proof.
  assert (H : refuses_all (U := operator_no)) by (intros shown q; reflexivity).
  exact (conj H (@refused_backup_never_deletes operator_no one_file
                   link_in_backup H)).
Defined.

(** ** Running [restore] twice *)

Section RestoreTwice.
Context {U : Utils}.
Variable self : ApplicationProfile.
Hypothesis refuses : refuses_all.
Hypothesis settles : copy_settles U.
Hypothesis apart : forall f g,
  In f (files self) -> In g (files self) ->
  home_of self f <> backup_of self g.

Lemma quiet_restore_turn (f : string) (w : World) :
  restore_due self (fs w) f = false ->
  fs (snd (restore_file self f w)) = fs w
  /\ Forall (fun e => is_mutation e = false)
            (new_events w (snd (restore_file self f w))).
Proof.
  unfold restore_due. intros Hdue.
  restore_paths self f w;
    try (rewrite refuses in Hans; discriminate);
    try (cbn in Hdue; discriminate Hdue);
    (split; [reflexivity | repeat constructor]).
Qed.

Lemma copying_restore_turn (f : string) (w : World) :
  restore_due self (fs w) f = true ->
  exists fs', copy_effect (backup_of self f) (home_of self f) (fs w) = Ok fs'
              /\ fs (snd (restore_file self f w)) = fs'
              /\ exists_ (fs w) (home_of self f) = false.
Proof.
  unfold restore_due. intros Hdue.
  apply andb_prop in Hdue as [Hdue Hfree].
  apply andb_prop in Hdue as [Hnodry Hw].
  apply negb_true_iff in Hfree, Hnodry.
  assert (Hback : isfile (fs w) (backup_of self f)
                  || isdir (fs w) (backup_of self f) = true).
  { unfold restore_wanted in Hw. apply andb_prop in Hw. tauto. }
  destruct (copy_succeeds U settles (backup_of self f) (home_of self f)
              (fs w) Hback) as [fs' Hfs'].
  exists fs'. split; [exact Hfs'|]. split; [|exact Hfree].
  rewrite restore_file_eq, Hw, Hnodry, Hfree. cbn zeta.
  unfold utils_copy; cbn [fs log]. rewrite Hfs'. reflexivity.
Qed.

Lemma raising_restore_turn (f : string) (w : World) (e : exn) :
  fst (restore_file self f w) = Raise e ->
  fs (snd (restore_file self f w)) = fs w.
Proof.
  destruct (restore_due self (fs w) f) eqn:Hdue.
  - destruct (copying_restore_turn f w Hdue) as (fs' & Hfs' & _ & Hfree).
    unfold restore_due in Hdue.
    apply andb_prop in Hdue as [Hdue _].
    apply andb_prop in Hdue as [Hnodry Hw].
    apply negb_true_iff in Hnodry.
    rewrite restore_file_eq, Hw, Hnodry, Hfree. cbn zeta.
    unfold utils_copy; cbn [fs log]. rewrite Hfs'. discriminate.
  - intros _. apply quiet_restore_turn. exact Hdue.
Qed.

Lemma restore_turn_by_fs (f : string) (w w' : World) :
  fs w = fs w' ->
  fst (restore_file self f w) = fst (restore_file self f w').
Proof.
  intros Hfs. rewrite !restore_file_eq, <- Hfs.
  destruct (restore_wanted self (fs w) f);
    [|destruct (verbose self); reflexivity].
  destruct (dry_run self); [reflexivity|].
  destruct (exists_ (fs w) (home_of self f)).
  - destruct (file_type (fs w) (home_of self f)); [|reflexivity].
    cbn zeta. rewrite !refuses. reflexivity.
  - unfold utils_copy; cbn [fs log]. rewrite <- Hfs.
    destruct (copy_effect _ _ _); reflexivity.
Qed.

Lemma restored_after_turn (f : string) (w : World) :
  restore_due self (fs (snd (restore_file self f w))) f = false.
Proof.
  destruct (restore_due self (fs w) f) eqn:Hdue.
  - destruct (copying_restore_turn f w Hdue) as (fs' & Hfs' & -> & _).
    unfold restore_due. rewrite (copy_creates U settles _ _ _ _ Hfs').
    apply andb_false_r.
  - rewrite (proj1 (quiet_restore_turn f w Hdue)). exact Hdue.
Qed.

Lemma restored_kept_by_turn (f g : string) (w : World) :
  In f (files self) -> In g (files self) ->
  restore_due self (fs w) f = false ->
  restore_due self (fs (snd (restore_file self g w))) f = false.
Proof.
  intros Hf Hg Hsettled.
  destruct (restore_due self (fs w) g) eqn:Hdue.
  - destruct (copying_restore_turn g w Hdue) as (fs' & Hfs' & -> & Hfree).
    assert (Hne : backup_of self f <> home_of self g)
      by (intros Heq; exact (apart g f Hg Hf (eq_sym Heq))).
    pose proof (copy_frame U settles _ _ _ _ (backup_of self f) Hfs' Hne)
      as Hback.
    destruct (same_entry _ _ _ Hback) as (Hbf & Hbd & _).
    destruct (String.eqb_spec (home_of self f) (home_of self g)) as [Heq|Hne'].
    + unfold restore_due. rewrite Heq, (copy_creates U settles _ _ _ _ Hfs').
      apply andb_false_r.
    + pose proof (copy_frame U settles _ _ _ _ (home_of self f) Hfs' Hne')
        as Hhome.
      destruct (same_entry _ _ _ Hhome) as (_ & _ & Hhe).
      unfold restore_due, restore_wanted in *.
      rewrite Hbf, Hbd, Hhe. exact Hsettled.
  - rewrite (proj1 (quiet_restore_turn g w Hdue)). exact Hsettled.
Qed.

Lemma restored_kept_by_loop (f : string) (xs : list string) (w : World) :
  In f (files self) -> (forall x, In x xs -> In x (files self)) ->
  restore_due self (fs w) f = false ->
  restore_due self (fs (snd (for_each (restore_file self) xs w))) f = false.
Proof.
  intros Hf. revert w. induction xs as [|x xs IH]; intros w Hxs Hsettled.
  - exact Hsettled.
  - cbn [for_each]. unfold bind.
    pose proof (restored_kept_by_turn f x w Hf (Hxs x (or_introl eq_refl))
                  Hsettled) as Hnext.
    destruct (restore_file self x w) as [[[]|e] w']; cbn [snd] in *.
    + apply IH; [intros y Hy; apply Hxs; right; exact Hy | exact Hnext].
    + exact Hnext.
Qed.

Lemma second_restore_loop_is_quiet (xs : list string) :
  (forall x, In x xs -> In x (files self)) ->
  forall w w2 : World,
    fs w2 = fs (snd (for_each (restore_file self) xs w)) ->
    fs (snd (for_each (restore_file self) xs w2)) = fs w2
    /\ Forall (fun e => is_mutation e = false)
              (new_events w2 (snd (for_each (restore_file self) xs w2))).
Proof.
  induction xs as [|x xs IH]; intros Hxs w w2 Hfs.
  - cbn. rewrite new_events_same. split; [reflexivity | constructor].
  - assert (Hx : In x (files self)) by (apply Hxs; left; reflexivity).
    assert (Hrest : forall y, In y xs -> In y (files self))
      by (intros y Hy; apply Hxs; right; exact Hy).
    assert (Hsettled : restore_due self (fs w2) x = false).
    { rewrite Hfs. cbn [for_each]. unfold bind.
      pose proof (restored_after_turn x w) as Hown.
      destruct (restore_file self x w) as [[[]|e] w'] eqn:Hturn; cbn [snd] in *.
      - apply restored_kept_by_loop; assumption.
      - exact Hown. }
    destruct (quiet_restore_turn x w2 Hsettled) as [Hq1 Hq2].
    destruct (fst (restore_file self x w2)) as [[]|e2] eqn:Hres2.
    + rewrite (new_events_next _ (restore_file_extends self) x xs w2 Hres2).
      rewrite (for_each_next _ x xs w2 Hres2).
      destruct (fst (restore_file self x w)) as [[]|e1] eqn:Hres1.
      * rewrite (for_each_next _ x xs w Hres1) in Hfs.
        destruct (IH Hrest (snd (restore_file self x w))
                    (snd (restore_file self x w2))) as [IH1 IH2].
        { rewrite Hq1. exact Hfs. }
        split; [rewrite IH1; exact Hq1|].
        apply Forall_app. split; assumption.
      * exfalso.
        rewrite (for_each_raise _ x xs w e1 Hres1) in Hfs.
        rewrite (raising_restore_turn x w e1 Hres1) in Hfs.
        rewrite (restore_turn_by_fs x w2 w Hfs), Hres1 in Hres2. discriminate.
    + rewrite (for_each_raise _ x xs w2 e2 Hres2). split; assumption.
Qed.

End RestoreTwice.

(** X14.  Let the operator refuse every question, let a copy of a file or
    a folder succeed, create its destination and change nothing else, and
    let no home path of a listed file be the backup path of a listed file.
    Then a second [restore] run right after a first one leaves the file
    system as the first one left it and calls neither [utils.copy] nor
    [utils.delete]: what the first run restored is now in the way, and the
    operator refuses to replace it. *)
Theorem second_restore_changes_nothing {U : Utils} (self : ApplicationProfile)
    (w : World) :
  refuses_all ->
  copy_settles U ->
  (forall f g, In f (files self) -> In g (files self) ->
               home_of self f <> backup_of self g) ->
  second_restore_is_quiet self w.
Proof.
  intros refuses settles apart. unfold second_restore_is_quiet, restore.
  apply (second_restore_loop_is_quiet self refuses settles apart (files self)
           (fun x H => H) w).
  reflexivity.
Qed.

Lemma second_restore_changes_nothing_witness :
  refuses_all (U := operator_no)
  /\ copy_settles operator_no
  /\ (forall f g, In f (files one_file) -> In g (files one_file) ->
                  home_of (U := operator_no) one_file f
                  <> backup_of (U := operator_no) one_file g)
  /\ second_restore_is_quiet (U := operator_no) one_file folder_in_backup_only.
Proof.
  assert (H1 : refuses_all (U := operator_no)) by (intros shown q; reflexivity).
  assert (H2 : copy_settles operator_no) by apply spec_copy_settles.
  assert (H3 : forall f g, In f (files one_file) -> In g (files one_file) ->
                 home_of (U := operator_no) one_file f
                 <> backup_of (U := operator_no) one_file g).
  { intros f g [<-|[]] [<-|[]]. vm_compute. discriminate. }
  refine (conj H1 (conj H2 (conj H3 _))).
  exact (@second_restore_changes_nothing operator_no one_file
           folder_in_backup_only H1 H2 H3).
Defined.

(** ** Runs that reach a file *)

Section Reaching.
Variable body : string -> M unit.
Hypothesis body_extends : forall x w,
  out (snd (body x w)) = (out w ++ new_events w (snd (body x w)))%list.




(** The files that got a turn are the first files of the list, and all of
    them when the loop ends normally. *)
Lemma turns_prefix (xs : list string) (w : World) :
  exists rest,
    xs = (map turn_file (turns body xs w) ++ rest)%list
    /\ (fst (for_each body xs w) = Ok tt -> rest = []).
Proof.
  revert w. induction xs as [|x xs IH]; intros w.
  - exists []. split; [reflexivity | auto].
  - cbn [turns map turn_file].
    destruct (fst (body x w)) as [[]|e] eqn:Hres.
    + destruct (IH (snd (body x w))) as (rest & Hxs & Hok).
      exists rest. split.
      * cbn [app]. f_equal. exact Hxs.
      * rewrite (for_each_next body x xs w Hres). exact Hok.
    + exists xs. split; [reflexivity|].
      rewrite (for_each_raise body x xs w e Hres), Hres. discriminate.
Qed.


End Reaching.

Example pipe_before_fresh_file_run :
  backup (U := operator_no) two_files pipe_before_fresh_file
  = (Raise (ValueError "Unsupported file: /b/x"),
     {| fs := fs pipe_before_fresh_file;
        out := [Printed "Backing up x ..."] |}).
Proof. vm_compute. reflexivity. Qed.





Example pipe_before_backed_up_folder_run :
  restore (U := operator_no) two_files pipe_before_backed_up_folder
  = (Raise (ValueError "Unsupported file: /b/x"),
     {| fs := fs pipe_before_backed_up_folder;
        out := [Printed "Restoring x ..."] |}).
Proof. vm_compute. reflexivity. Qed.




Example second_file_never_reached :
  let w := pipe_before_fresh_file in
  map turn_file (turns (backup_file (U := operator_no) two_files)
                   (files two_files) w) = ["x"]
  /\ backup_wanted (U := operator_no) two_files (fs w) "y" = true
  /\ new_events w (snd (backup (U := operator_no) two_files w))
     = [Printed "Backing up x ..."].
Proof. vm_compute. auto. Qed.

(** C9, amended.  A run of [backup] or [restore] gives one turn to each
    file of the list, in order, up to and including the first turn that
    raises: every file when the run ends normally, and no turn, no call
    and no line for the files after a raising turn.  The events of the run
    are those of the turns in order.  A turn of [backup] calls
    [utils.copy] at most once and [utils.delete] at most once (the delete
    only to make room for the copy that follows a yes); a turn of
    [restore] calls [utils.copy] at most once and [utils.delete] never.
    The turn of a file that meets the condition of the loop when the turn
    starts prints exactly one line, the status line. *)
Theorem one_turn_per_reached_file {U : Utils} (self : ApplicationProfile)
    (w : World) :
  ((exists rest,
      files self
      = (map turn_file (turns (backup_file self) (files self) w) ++ rest)%list
      /\ (fst (backup self w) = Ok tt -> rest = []))
   /\ Forall (fun t => count is_copy (turn_events t) <= 1
                      /\ count is_delete (turn_events t) <= 1
                      /\ one_status_line (backup_wanted self)
                           (backup_status self) t)
             (turns (backup_file self) (files self) w)
   /\ new_events w (snd (backup self w))
      = concat (map turn_events (turns (backup_file self) (files self) w)))
  /\ ((exists rest,
         files self
         = (map turn_file (turns (restore_file self) (files self) w) ++ rest)%list
         /\ (fst (restore self w) = Ok tt -> rest = []))
      /\ Forall (fun t => count is_copy (turn_events t) <= 1
                         /\ count is_delete (turn_events t) = 0
                         /\ one_status_line (restore_wanted self)
                              (restore_status self) t)
                (turns (restore_file self) (files self) w)
      /\ new_events w (snd (restore self w))
         = concat (map turn_events (turns (restore_file self) (files self) w))).
Proof.
  destruct (turns_are_bounded self w) as (Hb & Hr & Hbe & Hre).
  split; (split; [|split]); try assumption.
  - apply turns_prefix.
  - apply turns_prefix.
Qed.
